(** * dll: the Restricted Boltzmann Machine of [include/dll/rbm.inl]

    A shallow embedding of the class template [dll::rbm<Layer>] and the
    properties of its numerical engine.

    Numbers.  [weight] is [double] in the source.  Here a finite [double] is a
    real number and the arithmetic on finite values is exact: rounding is
    outside the model.  A value that is not finite (the result of a division
    by zero, of the logarithm of a non-positive number, or of an exponential
    or a sum of exponentials beyond the largest finite [double]) is the
    [None] of [xweight].  Overflow is modelled where the source exponentiates
    a total input and asserts on the result, in the SOFTMAX and EXP branches
    of [activate_hidden]; the sums of products and the logistic sigmoid are
    taken in the reals.

    Effects.  The source draws random numbers from function-local static
    generators and aborts on a failed assertion.  Both are explicit here: a
    computation is a function from the state of the generators to either a
    fault or a value with the new state of the generators.

    Not modelled: [train], which hands the instance to the external trainer
    (its writes to the public members are the assignments of [op] below), and
    how the [display] functions format a number. *)

From Stdlib Require Import String.
From Stdlib Require Import Reals Lra Lia List Arith Bool Permutation.
Import ListNotations.
Open Scope R_scope.

(** ** Numbers, vectors and matrices *)

Definition weight := R.

(** A [double] that may fail [std::isfinite]. *)
Definition xweight := option weight.

Definition xdiv (a b : xweight) : xweight :=
  match a, b with
  | Some x, Some y => if Req_dec_T y 0 then None else Some (x / y)
  | _, _ => None
  end.

Definition xplus (a b : xweight) : xweight :=
  match a, b with
  | Some x, Some y => Some (x + y)
  | _, _ => None
  end.

Definition xminus (a b : xweight) : xweight :=
  match a, b with
  | Some x, Some y => Some (x - y)
  | _, _ => None
  end.

Definition xlog (a : xweight) : xweight :=
  match a with
  | Some x => if Rlt_dec 0 x then Some (ln x) else None
  | None => None
  end.

(** The largest finite [double], [(2 - 2^-52) * 2^1023]; the smallest
    positive [double], [2^-1074]; and the smallest positive normal [double],
    [2^-1022], below which a [double] loses precision. *)
Definition max_finite : R := IZR (2 ^ 1024 - 2 ^ 971).
Definition min_positive : R := / IZR (2 ^ 1074).

(** [exp(x)] on a finite [x]: infinite beyond the largest finite [double],
    zero below the smallest positive one.  Here [None] is plus infinity. *)
Definition xexp (x : weight) : xweight :=
  if Rlt_dec max_finite (exp x) then None
  else if Rlt_dec (exp x) min_positive then Some 0
  else Some (exp x).

(** [sum + e] for a sum of exponentials: each is a finite value that is not
    negative, or plus infinity ([None]); the sum is infinite from the moment
    it passes the largest finite [double]. *)
Definition xsum (sum e : xweight) : xweight :=
  match sum, e with
  | Some x, Some y => if Rlt_dec max_finite (x + y) then None else Some (x + y)
  | _, _ => None
  end.

(** [e / sum] for an exponential and a sum of exponentials: a finite value
    divided by infinity is zero, infinity divided by anything is not finite,
    and so is zero divided by zero.  The [None] of the result is a value that
    fails [std::isfinite]. *)
Definition xquot (e sum : xweight) : xweight :=
  match e, sum with
  | Some x, Some y => xdiv (Some x) (Some y)
  | Some _, None => Some 0
  | None, _ => None
  end.

(** [a == b] on finite values. *)
Definition weight_eqb (a b : weight) : bool := if Req_dec_T a b then true else false.

(** [std::max(a, b)] is [(a < b) ? b : a] and [std::min(a, b)] is
    [(b < a) ? b : a]. *)
Definition std_max (a b : weight) : weight := if Rlt_dec a b then b else a.
Definition std_min (a b : weight) : weight := if Rlt_dec b a then b else a.

(** Modelled from the spec: [logistic_sigmoid] of [math.hpp], which is not
    part of the sources at hand; the spec names it the logistic sigmoid, with
    [logistic-sigmoid(0) = 0.5]. *)
Definition logistic_sigmoid (x : weight) : weight := 1 / (1 + exp (- x)).

(** [etl::fast_vector<weight, N>] and [dll::vector<weight>]: the elements in
    index order. *)
Definition vector := list weight.

(** [v(i)] and [v[i]].  The source does not check the index; every theorem
    below reads inside the bounds, the default only makes the function total. *)
Definition vget (v : vector) (i : nat) : weight := nth i v 0.

(** [v(i) = x].  An index outside the vector is undefined behaviour in the
    source; the model leaves the vector as it is there. *)
Fixpoint vset (v : vector) (i : nat) (x : weight) : vector :=
  match v, i with
  | [], _ => []
  | _ :: t, O => x :: t
  | h :: t, S i' => h :: vset t i' x
  end.

(** [v = x] for a scalar [x]: every element becomes [x]. *)
Definition vfill (v : vector) (x : weight) : vector := map (fun _ => x) v.

(** Modelled from the spec: [etl::fast_matrix<weight, R, C>] of the etl
    library, which is not part of the sources at hand; the spec gives the
    layout as row-major, so [w(i, j)] is element [i * C + j]. *)
Record matrix : Type := mk_matrix { cols : nat; data : list weight }.

Definition mget (m : matrix) (i j : nat) : weight :=
  nth (i * cols m + j) (data m) 0.

Definition zero_vector (n : nat) : vector := repeat 0 n.
Definition zero_matrix (r c : nat) : matrix := mk_matrix c (repeat 0 (r * c)).

(** ** Configuration *)

(** Modelled from the spec: the enumeration [unit_type] of the configuration
    header, which is not part of the sources at hand; the source names these
    seven enumerators and the spec lists the same seven unit types. *)
Inductive unit_type : Type :=
  BINARY | EXP | SOFTMAX | GAUSSIAN | RELU | RELU1 | RELU6.

Definition unit_type_eqb (a b : unit_type) : bool :=
  match a, b with
  | BINARY, BINARY | EXP, EXP | SOFTMAX, SOFTMAX | GAUSSIAN, GAUSSIAN
  | RELU, RELU | RELU1, RELU1 | RELU6, RELU6 => true
  | _, _ => false
  end.

(** Modelled from the spec: [is_relu] of the configuration header, which is
    not part of the sources at hand; the ReLU variants of the spec are RELU,
    RELU1 and RELU6. *)
Definition is_relu (t : unit_type) : bool :=
  match t with
  | RELU | RELU1 | RELU6 => true
  | _ => false
  end.

(** The template parameter [Layer]. *)
Record Layer : Type := mk_layer {
  num_visible : nat;
  num_hidden : nat;
  visible_unit : unit_type;
  hidden_unit : unit_type;
  DBN : bool
}.

Definition num_visible_gra (L : Layer) : nat := if DBN L then num_visible L else 0%nat.
Definition num_hidden_gra (L : Layer) : nat := if DBN L then num_hidden L else 0%nat.

(** ** Faults and random generators *)

Inductive fault : Type :=
| StaticAssert (msg : string)   (* a failed [static_assert] *)
| IllFormed (msg : string)      (* an instantiation that does not compile *)
| Assertion (msg : string)      (* a failed [dll_assert] *)
| Unreachable (msg : string).   (* [dll_unreachable] was reached *)

Inductive result (A : Type) : Type :=
| Ok (a : A)
| Fault (f : fault).
Arguments Ok {A} a.
Arguments Fault {A} f.

(** A generator bound with [std::bind]: the variates it will deliver and how
    many it has delivered. *)
Record generator : Type := mk_generator { draws : nat -> weight; pos : nat }.

Definition next (g : generator) : weight * generator :=
  (draws g (pos g), mk_generator (draws g) (S (pos g))).

(** The static generators of the class: [generator] of the constructor,
    [normal_generator] of [activate_hidden] and of [activate_visible] (a
    uniform distribution on [0, 1) despite the name), and the standard normal
    variates behind the [noise] closures of the two functions; [pos] counts
    the calls of each.  The engines are seeded from the clock and copied by
    [std::bind], so nothing is assumed about the values drawn: a theorem
    holds for every sequence of variates. *)
Record rand : Type := mk_rand {
  ctor_generator : generator;
  hidden_uniform : generator;
  hidden_normal : generator;
  visible_uniform : generator;
  visible_normal : generator
}.

Definition M (A : Type) : Type := rand -> result (A * rand).

Definition ret {A} (a : A) : M A := fun g => Ok (a, g).

Definition bind {A B} (m : M A) (k : A -> M B) : M B :=
  fun g => match m g with
           | Ok (a, g') => k a g'
           | Fault f => Fault f
           end.

Definition fail {A} (f : fault) : M A := fun _ => Fault f.

Notation "x <- m ;; k" := (bind m (fun x => k))
  (at level 61, m at next level, right associativity).
Notation "' p <- m ;; k" := (bind m (fun x => match x with p => k end))
  (at level 61, p pattern, m at next level, right associativity).
Notation "m ;; k" := (bind m (fun _ => k))
  (at level 61, right associativity).

(** Modelled from the spec: [dll_assert] and [dll_unreachable] of
    [assert.hpp], which is not part of the sources at hand; the spec makes a
    failed assertion and a reached unreachable point fatal. *)
Definition dll_assert (cond : bool) (msg : string) : M unit :=
  if cond then ret tt else fail (Assertion msg).

Definition dll_unreachable {A} (msg : string) : M A := fail (Unreachable msg).

(** [dll_assert(std::isfinite(x), msg)] on a value that may not be finite. *)
Definition assert_finite (x : xweight) (msg : string) : M weight :=
  match x with
  | Some v => ret v
  | None => fail (Assertion msg)
  end.

Definition draw_ctor : M weight :=
  fun g => let (x, s) := next (ctor_generator g) in
           Ok (x, mk_rand s (hidden_uniform g) (hidden_normal g)
                          (visible_uniform g) (visible_normal g)).

Definition draw_hidden_uniform : M weight :=
  fun g => let (x, s) := next (hidden_uniform g) in
           Ok (x, mk_rand (ctor_generator g) s (hidden_normal g)
                          (visible_uniform g) (visible_normal g)).

(** A variate of [std::normal_distribution<weight>(0.0, sigma)]: [sigma]
    times a standard normal variate. *)
Definition draw_hidden_noise (sigma : weight) : M weight :=
  fun g => let (x, s) := next (hidden_normal g) in
           Ok (sigma * x, mk_rand (ctor_generator g) (hidden_uniform g) s
                                  (visible_uniform g) (visible_normal g)).

Definition draw_visible_uniform : M weight :=
  fun g => let (x, s) := next (visible_uniform g) in
           Ok (x, mk_rand (ctor_generator g) (hidden_uniform g) (hidden_normal g)
                          s (visible_normal g)).

Definition draw_visible_noise (sigma : weight) : M weight :=
  fun g => let (x, s) := next (visible_normal g) in
           Ok (sigma * x, mk_rand (ctor_generator g) (hidden_uniform g)
                                  (hidden_normal g) (visible_uniform g) s).

(** ** Loops *)

(** [for(size_t k = lo; k < hi; ++k) s = body(k, s);] *)
Definition for_range {S : Type} (lo hi : nat) (body : nat -> S -> S) (s : S) : S :=
  fold_left (fun acc k => body k acc) (seq lo (hi - lo)) s.

(** The same loop with a body that draws random numbers or asserts. *)
Fixpoint for_each_M {S : Type} (ks : list nat) (body : nat -> S -> M S) (s : S) : M S :=
  match ks with
  | [] => ret s
  | k :: ks' => s' <- body k s ;; for_each_M ks' body s'
  end.

Definition for_range_M {S : Type} (lo hi : nat) (body : nat -> S -> M S) (s : S) : M S :=
  for_each_M (seq lo (hi - lo)) body s.

(** ** The object *)

(** The matrix members and the vector members of the class.  A reference
    member is bound to one of them. *)
Inductive mat_slot : Type :=
| slot_w | slot_gr_w_incs | slot_gr_w_best | slot_gr_w_best_incs
| slot_gr_w_df0 | slot_gr_w_df3 | slot_gr_w_s | slot_gr_w_tmp.

Inductive vec_slot : Type :=
| slot_b | slot_c | slot_v1
| slot_h1_a | slot_h1_s | slot_v2_a | slot_v2_s | slot_h2_a | slot_h2_s
| slot_gr_b_incs | slot_gr_b_best | slot_gr_b_best_incs
| slot_gr_b_df0 | slot_gr_b_df3 | slot_gr_b_s | slot_gr_b_tmp.

Definition mat_slot_eq_dec (a b : mat_slot) : {a = b} + {a <> b}.
Proof. decide equality. Defined.

Definition vec_slot_eq_dec (a b : vec_slot) : {a = b} + {a <> b}.
Proof. decide equality. Defined.

(** An instance: the storage of its members, the bindings of the two
    reference members [gr_w] and [gr_b], the per-sample caches and the
    [learning_rate] inherited from [rbm_base]. *)
Record rbm : Type := mk_rbm {
  mats : mat_slot -> matrix;
  vecs : vec_slot -> vector;
  gr_w_ref : mat_slot;
  gr_b_ref : vec_slot;
  gr_probs_a : list vector;
  gr_probs_s : list vector;
  learning_rate : weight
}.

Definition w (r : rbm) : matrix := mats r slot_w.
Definition b (r : rbm) : vector := vecs r slot_b.
Definition c (r : rbm) : vector := vecs r slot_c.
Definition v1 (r : rbm) : vector := vecs r slot_v1.
Definition h1_a (r : rbm) : vector := vecs r slot_h1_a.
Definition h1_s (r : rbm) : vector := vecs r slot_h1_s.
Definition v2_a (r : rbm) : vector := vecs r slot_v2_a.
Definition v2_s (r : rbm) : vector := vecs r slot_v2_s.
Definition h2_a (r : rbm) : vector := vecs r slot_h2_a.
Definition h2_s (r : rbm) : vector := vecs r slot_h2_s.
Definition gr_w_tmp (r : rbm) : matrix := mats r slot_gr_w_tmp.
Definition gr_b_tmp (r : rbm) : vector := vecs r slot_gr_b_tmp.

(** Reading through the reference members. *)
Definition gr_w (r : rbm) : matrix := mats r (gr_w_ref r).
Definition gr_b (r : rbm) : vector := vecs r (gr_b_ref r).

(** Assignment to a member; the bindings of the references stay. *)
Definition set_mat (s : mat_slot) (m : matrix) (r : rbm) : rbm :=
  mk_rbm (fun s' => if mat_slot_eq_dec s' s then m else mats r s')
         (vecs r) (gr_w_ref r) (gr_b_ref r)
         (gr_probs_a r) (gr_probs_s r) (learning_rate r).

Definition set_vec (s : vec_slot) (v : vector) (r : rbm) : rbm :=
  mk_rbm (mats r)
         (fun s' => if vec_slot_eq_dec s' s then v else vecs r s')
         (gr_w_ref r) (gr_b_ref r)
         (gr_probs_a r) (gr_probs_s r) (learning_rate r).

(** Assignment through a reference member writes the member it is bound to. *)
Definition set_gr_w (m : matrix) (r : rbm) : rbm := set_mat (gr_w_ref r) m r.
Definition set_gr_b (v : vector) (r : rbm) : rbm := set_vec (gr_b_ref r) v r.

(** ** Construction *)

(** The two [static_assert]s of the class body. *)
Definition static_asserts (L : Layer) : M unit :=
  if negb (unit_type_eqb (visible_unit L) SOFTMAX)
     && negb (unit_type_eqb (visible_unit L) EXP)
  then
    if negb (unit_type_eqb (hidden_unit L) GAUSSIAN)
    then ret tt
    else fail (StaticAssert "Gaussian hidden units are not supported")
  else fail (StaticAssert "Exponential and softmax Visible units are not support").

(** [for(auto& weight : w) weight = generator() * 0.1;] *)
Fixpoint init_elements (ws : list weight) : M (list weight) :=
  match ws with
  | [] => ret []
  | _ :: t => x <- draw_ctor ;; t' <- init_elements t ;; ret (x * 0.1 :: t')
  end.

Definition initial_learning_rate (L : Layer) : weight :=
  if unit_type_eqb (visible_unit L) GAUSSIAN && is_relu (hidden_unit L) then 1e-5
  else if unit_type_eqb (visible_unit L) GAUSSIAN || is_relu (hidden_unit L) then 1e-3
  else 1e-1.

(** The members before the constructor body runs: [b] and [c] are filled with
    zero by the initialiser list, [gr_w] is bound to [w] and [gr_b] to [b] by
    their default member initialisers.  The other buffers are
    default-constructed by etl; the model takes them as zero. *)
Definition members (L : Layer) : rbm :=
  mk_rbm
    (fun s => match s with
              | slot_w => zero_matrix (num_visible L) (num_hidden L)
              | _ => zero_matrix (num_visible_gra L) (num_hidden_gra L)
              end)
    (fun s => match s with
              | slot_b | slot_h1_a | slot_h1_s | slot_h2_a | slot_h2_s =>
                  zero_vector (num_hidden L)
              | slot_c | slot_v1 | slot_v2_a | slot_v2_s =>
                  zero_vector (num_visible L)
              | _ => zero_vector (num_hidden_gra L)
              end)
    slot_w slot_b [] [] 0.

(** [rbm()] for an instantiation of the class template with [Layer = L]; an
    instantiation that fails a [static_assert] has no instances. *)
Definition rbm_ctor (L : Layer) : M rbm :=
  static_asserts L ;;
  let r := members L in
  ws <- init_elements (data (w r)) ;;
  let r := set_mat slot_w (mk_matrix (cols (w r)) ws) r in
  ret (mk_rbm (mats r) (vecs r) (gr_w_ref r) (gr_b_ref r)
              (gr_probs_a r) (gr_probs_s r) (initial_learning_rate L)).

(** ** Persistence *)

(** Modelled from the spec: [binary_write_all] and [binary_load_all] of
    [io.hpp], which is not part of the sources at hand.  The spec makes the
    format a raw dump of the values in sequence, so a stream is the list of
    the values in it; writing appends each element of the container in order,
    loading gives each element of the container the next value of the stream.
    The spec does not say what loading does at the end of the stream; the
    model leaves the remaining elements as they are. *)
Definition binary_write_all (os : list weight) (container : list weight) : list weight :=
  fold_left (fun os v => os ++ [v]) container os.

Fixpoint binary_load_all (ins : list weight) (container : list weight)
  {struct container} : list weight * list weight :=
  match container with
  | [] => (ins, [])
  | v :: t =>
      match ins with
      | [] => ([], v :: t)
      | x :: ins' => let (rest, t') := binary_load_all ins' t in (rest, x :: t')
      end
  end.

Definition store (r : rbm) (os : list weight) : list weight :=
  let os := binary_write_all os (data (w r)) in
  let os := binary_write_all os (b r) in
  binary_write_all os (c r).

(** [load] gives back the rest of the stream with the instance. *)
Definition load (ins : list weight) (r : rbm) : list weight * rbm :=
  let (ins, dw) := binary_load_all ins (data (w r)) in
  let r := set_mat slot_w (mk_matrix (cols (w r)) dw) r in
  let (ins, vb) := binary_load_all ins (b r) in
  let r := set_vec slot_b vb r in
  let (ins, vc) := binary_load_all ins (c r) in
  (ins, set_vec slot_c vc r).

(** ** Warm start of the visible biases *)

Definition init_weights (L : Layer) (training_data : list vector) (r : rbm) : M rbm :=
  for_range_M 0 (num_visible L) (fun i r =>
    let count := fold_left (fun count items =>
                   if weight_eqb (vget items i) 1 then S count else count)
                 training_data 0%nat in
    let pi := xdiv (Some (INR count)) (Some (INR (length training_data))) in
    let pi := xplus pi (Some 0.0001) in
    ci <- assert_finite (xlog (xdiv pi (xminus (Some 1) pi))) "NaN verify" ;;
    ret (set_vec slot_c (vset (c r) i ci) r)) r.

(** ** Gibbs sampling *)

(** [weight s = 0.0; for(i...) s += w(i, j) * v_a[i];] of [activate_hidden]. *)
Definition hidden_sum (L : Layer) (wm : matrix) (v_a : vector) (j : nat) : weight :=
  for_range 0 (num_visible L) (fun i s => s + mget wm i j * vget v_a i) 0.

(** The static overload [activate_hidden(h_a, h_s, v_a, v_s, b, w)].  The
    buffers [h_a] and [h_s] are passed by reference in the source; the model
    takes them and gives them back.  The chain of [if(hidden_unit == ...)]
    inside the loop is the [match].  The assertions that can fail are those
    on [h_a(j)] in the SOFTMAX and EXP branches, where [exp] overflows from a
    total input of about 709.8 on; the assertions on [s], [x] and on the
    values of the other branches hold on finite reals and are left out. *)
Definition activate_hidden_with (L : Layer) (h_a h_s v_a v_s : vector)
    (bv : vector) (wm : matrix) : M (vector * vector) :=
  let h_a := vfill h_a 0 in
  let h_s := vfill h_s 0 in
  if unit_type_eqb (hidden_unit L) SOFTMAX then
    let exp_sum :=
      for_range 0 (num_hidden L) (fun j exp_sum =>
        let s := hidden_sum L wm v_a j in
        let x := vget bv j + s in
        xsum exp_sum (xexp x)) (Some 0) in
    h_a <- for_range_M 0 (num_hidden L) (fun j h_a =>
        let s := hidden_sum L wm v_a j in
        let x := vget bv j + s in
        a <- assert_finite (xquot (xexp x) exp_sum) "NaN verify" ;;
        ret (vset h_a j a)) h_a ;;
    let max_j :=
      for_range 1 (num_hidden L) (fun j max_j =>
        if Rgt_dec (vget h_a j) (vget h_a max_j) then j else max_j) 0%nat in
    let h_s := vfill h_s 0 in
    ret (h_a, vset h_s max_j 1)
  else
    for_range_M 0 (num_hidden L) (fun j '(h_a, h_s) =>
      let s := hidden_sum L wm v_a j in
      let x := vget bv j + s in
      match hidden_unit L with
      | BINARY =>
          let a := logistic_sigmoid x in
          u <- draw_hidden_uniform ;;
          ret (vset h_a j a, vset h_s j (if Rgt_dec a u then 1 else 0))
      | EXP =>
          u <- draw_hidden_uniform ;;
          a <- assert_finite (xexp x) "NaN verify" ;;
          ret (vset h_a j a, vset h_s j (if Rgt_dec a u then 1 else 0))
      | RELU =>
          n <- draw_hidden_noise (logistic_sigmoid x) ;;
          ret (vset h_a j (std_max 0 x), vset h_s j (std_max 0 (x + n)))
      | RELU6 =>
          let a := std_min (std_max 0 x) 6 in
          if weight_eqb a 0 || weight_eqb a 6 then
            ret (vset h_a j a, vset h_s j a)
          else
            n <- draw_hidden_noise 1 ;;
            ret (vset h_a j a, vset h_s j (std_min (std_max 0 (x + n)) 6))
      | RELU1 =>
          let a := std_min (std_max 0 x) 1 in
          if weight_eqb a 0 || weight_eqb a 1 then
            ret (vset h_a j a, vset h_s j a)
          else
            n <- draw_hidden_noise 1 ;;
            ret (vset h_a j a, vset h_s j (std_min (std_max 0 (x + n)) 1))
      | _ => dll_unreachable "Invalid path"
      end) (h_a, h_s).

(** The member [activate_hidden(h_a, h_s, v_a, v_s)]. *)
Definition activate_hidden (L : Layer) (r : rbm) (h_a h_s v_a v_s : vector)
  : M (vector * vector) :=
  activate_hidden_with L h_a h_s v_a v_s (b r) (w r).

(** The two operands of [Temp ? gr_b_tmp : gr_b] and of
    [Temp ? gr_w_tmp : gr_w] have the same type only when the gradient
    buffers have the sizes of the parameters. *)
Definition gradient_types_agree (L : Layer) : bool :=
  Nat.eqb (num_visible_gra L) (num_visible L)
  && Nat.eqb (num_hidden_gra L) (num_hidden L).

(** [gr_activate_hidden<Temp>(h_a, h_s, v_a, v_s)].  Where the operands of
    its conditional expressions differ in type, in a standalone layer with
    units, an instantiation of the member template does not compile. *)
Definition gr_activate_hidden (L : Layer) (Temp : bool) (r : rbm)
    (h_a h_s v_a v_s : vector) : M (vector * vector) :=
  if gradient_types_agree L then
    activate_hidden_with L h_a h_s v_a v_s
      (if Temp then gr_b_tmp r else gr_b r)
      (if Temp then gr_w_tmp r else gr_w r)
  else fail (IllFormed "operands to ?: have different types").

(** [activate_visible(h_a, h_s, v_a, v_s)]; the first argument is not named
    in the source. *)
Definition activate_visible (L : Layer) (r : rbm) (h_a h_s v_a v_s : vector)
  : M (vector * vector) :=
  let v_a := vfill v_a 0 in
  let v_s := vfill v_s 0 in
  for_range_M 0 (num_visible L) (fun i '(v_a, v_s) =>
    let s := for_range 0 (num_hidden L) (fun j s => s + mget (w r) i j * vget h_s j) 0 in
    let x := vget (c r) i + s in
    match visible_unit L with
    | BINARY =>
        let a := logistic_sigmoid x in
        u <- draw_visible_uniform ;;
        ret (vset v_a i a, vset v_s i (if Rgt_dec a u then 1 else 0))
    | GAUSSIAN =>
        n <- draw_visible_noise 1 ;;
        ret (vset v_a i x, vset v_s i (x + n))
    | RELU =>
        n <- draw_visible_noise (logistic_sigmoid x) ;;
        ret (vset v_a i (std_max 0 x), vset v_s i (std_max 0 (x + n)))
    | _ => dll_unreachable "Invalid path"
    end) (v_a, v_s).

(** ** Diagnostics *)

Definition free_energy (L : Layer) (r : rbm) : weight :=
  let energy :=
    for_range 0 (num_visible L) (fun i energy =>
      for_range 0 (num_hidden L) (fun j energy =>
        energy + mget (w r) i j * vget (b r) j * vget (c r) i) energy) 0 in
  - energy.

(** [reconstruct(items)]; the stop watch and the line printed at the end are
    not modelled. *)
Definition reconstruct (L : Layer) (items : vector) (r : rbm) : M rbm :=
  dll_assert (Nat.eqb (List.length items) (num_visible L))
    "The size of the training sample must match visible units" ;;
  let r := set_vec slot_v1 items r in
  '(a, s) <- activate_hidden L r (h1_a r) (h1_s r) (v1 r) (v1 r) ;;
  let r := set_vec slot_h1_s s (set_vec slot_h1_a a r) in
  '(a, s) <- activate_visible L r (h1_a r) (h1_s r) (v2_a r) (v2_s r) ;;
  let r := set_vec slot_v2_s s (set_vec slot_v2_a a r) in
  '(a, s) <- activate_hidden L r (h2_a r) (h2_s r) (v2_a r) (v2_s r) ;;
  ret (set_vec slot_h2_s s (set_vec slot_h2_a a r)).

(** What the display functions send to [std::cout]: a number, the string
    [" "], or [std::endl].  How a number is formatted is not modelled. *)
Inductive token : Type :=
| Value (x : weight)
| Space
| Endl.

(** [display_weights()]. *)
Definition display_weights (L : Layer) (r : rbm) : list token :=
  for_range 0 (num_hidden L) (fun j out =>
    let out :=
      for_range 0 (num_visible L) (fun i out =>
        out ++ [Value (mget (w r) i j); Space]) out in
    out ++ [Endl]) [].

(** The loop [for(size_t i = 0; i < num_visible;)] of
    [display_weights(size_t matrix)], which advances [i] only inside its
    body; [fuel] bounds the number of rounds, and [None] is a loop that is
    still running when the fuel is spent. *)
Fixpoint display_weights_rows (fuel : nat) (L : Layer) (r : rbm)
    (matrix j i : nat) (out : list token) : option (list token) :=
  match fuel with
  | O => None
  | S fuel' =>
      if Nat.ltb i (num_visible L) then
        let '(i, out) :=
          for_range 0 matrix (fun m '(i, out) =>
            (S i, out ++ [Value (mget (w r) i j); Space])) (i, out) in
        display_weights_rows fuel' L r matrix j i (out ++ [Endl])
      else Some out
  end.

(** [display_weights(size_t matrix)]. *)
Definition display_weights_matrix (fuel : nat) (L : Layer) (r : rbm)
    (matrix : nat) : option (list token) :=
  for_range 0 (num_hidden L) (fun j out =>
    match out with
    | Some out => display_weights_rows fuel L r matrix j 0 out
    | None => None
    end) (Some []).

(** [display_visible_units(size_t matrix)]. *)
Definition display_visible_units_matrix (r : rbm) (matrix : nat) : list token :=
  for_range 0 matrix (fun i out =>
    let out :=
      for_range 0 matrix (fun j out =>
        out ++ [Value (vget (v2_s r) (i * matrix + j)); Space]) out in
    out ++ [Endl]) [].

(** ** The life of an instance *)

(** What can happen to an instance after its construction: a call of one of
    its member functions, or an assignment to one of its public members by
    the trainer or the optimiser, directly or through [gr_w] and [gr_b].
    A reference member cannot be bound again, and the class deletes copy and
    move, so no operation touches [gr_w_ref] or [gr_b_ref]. *)
Inductive op : Type :=
| Op_store (os : list weight)
| Op_load (ins : list weight)
| Op_init_weights (training_data : list vector)
| Op_free_energy
| Op_reconstruct (items : vector)
| Op_activate_hidden (Temp : option bool) (h_a h_s v_a v_s : vector)
| Op_activate_visible (h_a h_s v_a v_s : vector)
| Op_assign_mat (s : mat_slot) (m : matrix)
| Op_assign_vec (s : vec_slot) (v : vector)
| Op_assign_gr_w (m : matrix)
| Op_assign_gr_b (v : vector)
| Op_assign_learning_rate (x : weight).

(** The instance after an operation.  The [const] member functions give the
    instance back as it was. *)
Definition exec (L : Layer) (o : op) (r : rbm) : M rbm :=
  match o with
  | Op_store os => let _ := store r os in ret r
  | Op_load ins => ret (snd (load ins r))
  | Op_init_weights training_data => init_weights L training_data r
  | Op_free_energy => let _ := free_energy L r in ret r
  | Op_reconstruct items => reconstruct L items r
  | Op_activate_hidden None h_a h_s v_a v_s =>
      activate_hidden L r h_a h_s v_a v_s ;; ret r
  | Op_activate_hidden (Some Temp) h_a h_s v_a v_s =>
      gr_activate_hidden L Temp r h_a h_s v_a v_s ;; ret r
  | Op_activate_visible h_a h_s v_a v_s =>
      activate_visible L r h_a h_s v_a v_s ;; ret r
  | Op_assign_mat s m => ret (set_mat s m r)
  | Op_assign_vec s v => ret (set_vec s v r)
  | Op_assign_gr_w m => ret (set_gr_w m r)
  | Op_assign_gr_b v => ret (set_gr_b v r)
  | Op_assign_learning_rate x =>
      ret (mk_rbm (mats r) (vecs r) (gr_w_ref r) (gr_b_ref r)
                  (gr_probs_a r) (gr_probs_s r) x)
  end.

(** The instances of [rbm<L>] a program can hold: the one the constructor
    made, and the ones operations lead to. *)
Inductive reachable (L : Layer) : rbm -> Prop :=
| reach_ctor : forall g r g',
    rbm_ctor L g = Ok (r, g') -> reachable L r
| reach_exec : forall o r g r' g',
    reachable L r -> exec L o r g = Ok (r', g') -> reachable L r'.

(** ** The properties *)

(** The sum of [f 0], ..., [f (n - 1)], as the specification writes it. *)
Fixpoint big_sum (f : nat -> R) (n : nat) : R :=
  match n with
  | O => 0
  | S n' => big_sum f n' + f n'
  end.

(** A well-shaped instance of [rbm<L>]: the sizes the types of the members
    fix in the source. *)
Definition shaped (L : Layer) (r : rbm) : Prop :=
  cols (w r) = num_hidden L /\
  List.length (data (w r)) = (num_visible L * num_hidden L)%nat /\
  List.length (b r) = num_hidden L /\
  List.length (c r) = num_visible L.

(** Generators that deliver the same value at every draw, for the examples. *)
Definition constant_generator (x : weight) : generator := mk_generator (fun _ => x) 0.

Definition constant_rand (x : weight) : rand :=
  mk_rand (constant_generator x) (constant_generator x) (constant_generator x)
          (constant_generator x) (constant_generator x).

(** The scenario of the spec: four BINARY visible units, two BINARY hidden
    units. *)
Definition layer_4_2 : Layer := mk_layer 4 2 BINARY BINARY false.

Definition layer_4_2_relu1 : Layer := mk_layer 4 2 BINARY RELU1 false.

(** A layer with RELU1 visible units: it passes both [static_assert]s. *)
Definition layer_relu1_visible : Layer := mk_layer 1 1 RELU1 BINARY false.

(** An instance with all parameters zero. *)
Definition zero_rbm (L : Layer) : rbm :=
  mk_rbm (mats (members L)) (vecs (members L)) slot_w slot_b [] []
         (initial_learning_rate L).

(** The total input of hidden unit [j], as the specification writes it. *)
Definition total_input (L : Layer) (bv : vector) (wm : matrix) (v_a : vector)
    (j : nat) : R :=
  vget bv j + big_sum (fun i => mget wm i j * vget v_a i) (num_visible L).

(** [clamp(x, lo, hi)], as the specification writes it. *)
Definition clamp (x lo hi : R) : R :=
  if Rlt_dec x lo then lo else if Rlt_dec hi x then hi else x.

(** The upper clamp of RELU1 and RELU6. *)
Definition relu_upper (t : unit_type) : R :=
  match t with
  | RELU6 => 6
  | _ => 1
  end.

(** A clamped unit is on the boundary when its activation is 0 or the upper
    clamp. *)
Definition on_boundary (u x : R) : bool :=
  weight_eqb (clamp x 0 u) 0 || weight_eqb (clamp x 0 u) u.

(** The number of units among the first [j] that are not on the boundary,
    [x k] being the total input of unit [k]. *)
Fixpoint interior_before (u : R) (x : nat -> R) (j : nat) : nat :=
  match j with
  | O => O
  | S j' => (interior_before u x j' + (if on_boundary u (x j') then 0 else 1))%nat
  end.

(** The number of training examples whose component [i] equals 1, and the
    smoothed empirical probability of the specification. *)
Definition ones_count (training_data : list vector) (i : nat) : nat :=
  List.length (filter (fun items => weight_eqb (vget items i) 1) training_data).

Definition empirical_p (training_data : list vector) (i : nat) : R :=
  INR (ones_count training_data i) / INR (List.length training_data) + 0.0001.

(** What the instance is after the first [k] rounds of [init_weights]. *)
Definition warm_started (L : Layer) (training_data : list vector) (r : rbm)
    (k : nat) (r' : rbm) : Prop :=
  List.length (c r') = num_visible L /\
  (forall i, (i < k)%nat ->
     vget (c r') i = ln (empirical_p training_data i
                         / (1 - empirical_p training_data i))) /\
  mats r' = mats r /\
  (forall s, s <> slot_c -> vecs r' s = vecs r s) /\
  gr_w_ref r' = gr_w_ref r /\ gr_b_ref r' = gr_b_ref r /\
  gr_probs_a r' = gr_probs_a r /\ gr_probs_s r' = gr_probs_s r /\
  learning_rate r' = learning_rate r.

(** Two training sets for the scenario of the spec: in the first every unit
    is 1 in at most half of the examples, in the second unit 0 is 1 in every
    example. *)
Definition balanced_data : list vector := [[1; 0; 1; 0]; [0; 1; 0; 0]].
Definition saturated_data : list vector := [[1; 0; 1; 0]; [1; 1; 0; 0]].




(** A layer with RELU hidden units, and one with EXP hidden units. *)
Definition layer_4_2_relu : Layer := mk_layer 4 2 BINARY RELU false.

(** The total input of visible unit [i], from the hidden sample. *)
Definition visible_input (L : Layer) (r : rbm) (h_s : vector) (i : nat) : R :=
  vget (c r) i + big_sum (fun j => mget (w r) i j * vget h_s j) (num_hidden L).


(** Layers with GAUSSIAN and with RELU visible units. *)
Definition layer_gaussian_visible : Layer := mk_layer 4 2 GAUSSIAN BINARY false.
Definition layer_relu_visible : Layer := mk_layer 4 2 RELU BINARY false.


(** The numbers in an output, in order, and the number of line ends. *)
Fixpoint values (out : list token) : list weight :=
  match out with
  | [] => []
  | Value x :: t => x :: values t
  | _ :: t => values t
  end.

Fixpoint line_count (out : list token) : nat :=
  match out with
  | [] => O
  | Endl :: t => S (line_count t)
  | _ :: t => line_count t
  end.

(** Column [j] of [w]: the weights of hidden unit [j]. *)
Definition column (L : Layer) (r : rbm) (j : nat) : list weight :=
  map (fun i => mget (w r) i j) (seq 0 (num_visible L)).


(** A layer of a DBN, whose gradient buffers have the sizes of the
    parameters, with a weight matrix for the live parameters and one for the
    trial parameters. *)
Definition layer_dbn : Layer := mk_layer 4 2 BINARY BINARY true.
Definition live_weights : matrix := mk_matrix 2 [1; 0; 0; 0; 0; 0; 0; 0].
Definition trial_weights : matrix := mk_matrix 2 [-1; 0; 0; 0; 0; 0; 0; 0].

(** *** Loops, vectors and the monad *)

Lemma bind_ok {A B : Type} (m : M A) (k : A -> M B) (g : rand) (y : B) (g' : rand) :
  bind m k g = Ok (y, g') ->
  exists a g1, m g = Ok (a, g1) /\ k a g1 = Ok (y, g').
Proof.
  unfold bind. destruct (m g) as [[a g1] | f]; intros H; [|discriminate].
  now exists a, g1.
Qed.

Section Loops.

Context {S : Type}.

Lemma for_range_step (lo hi : nat) (body : nat -> S -> S) (s : S) :
  (lo <= hi)%nat ->
  for_range lo (Datatypes.S hi) body s = body hi (for_range lo hi body s).
Proof.
  intros Hle. unfold for_range.
  replace (Datatypes.S hi - lo)%nat with (Datatypes.S (hi - lo)) by lia.
  rewrite seq_S, fold_left_app. simpl.
  replace (lo + (hi - lo))%nat with hi by lia. reflexivity.
Qed.

Lemma for_range_empty (lo : nat) (body : nat -> S -> S) (s : S) :
  for_range lo lo body s = s.
Proof. unfold for_range. rewrite Nat.sub_diag. reflexivity. Qed.

Lemma for_each_M_app (l1 l2 : list nat) (body : nat -> S -> M S)
    (s : S) (g : rand) :
  for_each_M (l1 ++ l2) body s g
  = bind (for_each_M l1 body s) (for_each_M l2 body) g.
Proof.
  revert s g. induction l1 as [|k l1 IH]; intros s g; simpl.
  - reflexivity.
  - unfold bind. destruct (body k s g) as [[s1 g1] | f]; [|reflexivity].
    rewrite IH. reflexivity.
Qed.

Lemma for_range_M_step (lo hi : nat) (body : nat -> S -> M S)
    (s : S) (g : rand) :
  (lo <= hi)%nat ->
  for_range_M lo (Datatypes.S hi) body s g
  = bind (for_range_M lo hi body s) (body hi) g.
Proof.
  intros Hle. unfold for_range_M.
  replace (Datatypes.S hi - lo)%nat with (Datatypes.S (hi - lo)) by lia.
  rewrite seq_S, for_each_M_app.
  replace (lo + (hi - lo))%nat with hi by lia.
  unfold bind. destruct (for_each_M _ body s g) as [[s1 g1] | f]; [|reflexivity].
  simpl. unfold bind. destruct (body hi s1 g1) as [[s2 g2] | f]; reflexivity.
Qed.

Lemma for_each_M_fault (ks : list nat) (body : nat -> S -> M S)
    (s : S) (g : rand) (f : fault) :
  for_each_M ks body s g = Fault f ->
  exists k s' g', In k ks /\ body k s' g' = Fault f.
Proof.
  revert s g. induction ks as [|k ks IH]; intros s g H; simpl in H.
  - discriminate.
  - unfold bind in H. destruct (body k s g) as [[s1 g1] | f1] eqn:Hb.
    + destruct (IH _ _ H) as (k' & s' & g' & Hin & Hf).
      exists k', s', g'. split; [now right | exact Hf].
    + injection H as ->. exists k, s, g. split; [now left | exact Hb].
Qed.

Lemma for_each_M_preserves (P : S -> Prop) (ks : list nat)
    (body : nat -> S -> M S) (s : S) (g : rand) (s' : S) (g' : rand) :
  (forall k s1 g1 s2 g2, body k s1 g1 = Ok (s2, g2) -> P s1 -> P s2) ->
  P s ->
  for_each_M ks body s g = Ok (s', g') ->
  P s'.
Proof.
  intros Hstep. revert s g. induction ks as [|k ks IH]; intros s g HP H; simpl in H.
  - unfold ret in H. injection H as <- <-. exact HP.
  - apply bind_ok in H. destruct H as (s1 & g1 & Hb & H).
    eapply IH; [|exact H]. eapply Hstep; eauto.
Qed.

(** A loop whose body succeeds and carries an invariant from one index to
    the next succeeds, and the invariant holds at the end. *)
Lemma for_range_M_invariant (P : nat -> S -> rand -> Prop)
    (lo hi : nat) (body : nat -> S -> M S) (s : S) (g : rand) :
  (lo <= hi)%nat ->
  P lo s g ->
  (forall k s1 g1, (lo <= k < hi)%nat -> P k s1 g1 ->
     exists s2 g2, body k s1 g1 = Ok (s2, g2) /\ P (Datatypes.S k) s2 g2) ->
  exists s' g', for_range_M lo hi body s g = Ok (s', g') /\ P hi s' g'.
Proof.
  unfold for_range_M. intros Hle.
  remember (hi - lo)%nat as n eqn:Hn.
  revert lo s g Hle Hn. induction n as [|n IH]; intros lo s g Hle Hn H0 Hstep.
  - simpl. exists s, g. replace hi with lo by lia. now split.
  - simpl. destruct (Hstep lo s g ltac:(lia) H0) as (s2 & g2 & Hb & HP).
    unfold bind at 1. rewrite Hb.
    apply IH; try lia; [exact HP|].
    intros k s1 g1 Hk. apply Hstep. lia.
Qed.

End Loops.

Lemma for_range_accumulate (f : nat -> R) (n : nat) (a : R) :
  for_range 0 n (fun i s => s + f i) a = a + big_sum f n.
Proof.
  induction n as [|n IH].
  - rewrite for_range_empty. simpl. lra.
  - rewrite for_range_step by lia. rewrite IH. simpl. lra.
Qed.


Lemma length_vset (v : vector) (i : nat) (x : weight) :
  List.length (vset v i x) = List.length v.
Proof.
  revert i. induction v as [|h t IH]; intros [|i]; simpl; try reflexivity.
  now rewrite IH.
Qed.

Lemma vget_vset_same (v : vector) (i : nat) (x : weight) :
  (i < List.length v)%nat -> vget (vset v i x) i = x.
Proof.
  unfold vget. revert i. induction v as [|h t IH]; intros [|i] H; simpl in *;
    try lia; try reflexivity.
  apply IH. lia.
Qed.

Lemma vget_vset_other (v : vector) (i k : nat) (x : weight) :
  i <> k -> vget (vset v i x) k = vget v k.
Proof.
  unfold vget. revert i k. induction v as [|h t IH]; intros [|i] [|k] H; simpl;
    try reflexivity; try congruence.
  apply IH. congruence.
Qed.

Lemma length_vfill (v : vector) (x : weight) :
  List.length (vfill v x) = List.length v.
Proof. apply length_map. Qed.

Lemma vfill_repeat (v : vector) (x : weight) :
  vfill v x = repeat x (List.length v).
Proof. induction v as [|h t IH]; simpl; [reflexivity | now rewrite <- IH]. Qed.


(** *** Free energy *)

(** C1.  [free_energy()] returns the negation of the sum, over the visible
    indices [i] and the hidden indices [j], of [w(i, j) * b(j) * c(i)]: a
    function of the parameters alone.  It is a [const] member: the instance
    and the generators are after the call what they were before. *)
Theorem free_energy_formula (L : Layer) (r : rbm) :
  free_energy L r =
    - big_sum (fun i =>
        big_sum (fun j => mget (w r) i j * vget (b r) j * vget (c r) i)
                (num_hidden L))
      (num_visible L)
  /\ (forall g, exec L Op_free_energy r g = Ok (r, g))
  /\ (forall r', w r' = w r -> b r' = b r -> c r' = c r ->
                 free_energy L r' = free_energy L r).
Proof.
  split; [|split].
  - unfold free_energy. f_equal.
    generalize (num_visible L) as n. intros n.
    induction n as [|n IH].
    + now rewrite for_range_empty.
    + rewrite for_range_step by lia. rewrite for_range_accumulate, IH.
      reflexivity.
  - intros g. reflexivity.
  - intros r' Hw Hb Hc. unfold free_energy. now rewrite Hw, Hb, Hc.
Qed.

(** *** Construction *)

Lemma init_elements_ok (ws : list weight) (g : rand) :
  exists ws' g', init_elements ws g = Ok (ws', g')
                 /\ List.length ws' = List.length ws.
Proof.
  revert g. induction ws as [|h t IH]; intros g; simpl.
  - now exists [], g.
  - unfold bind at 1. unfold draw_ctor at 1. simpl.
    set (g1 := mk_rand _ _ _ _ _).
    destruct (IH g1) as (ws' & g' & Heq & Hlen).
    unfold bind at 1. rewrite Heq.
    exists (draws (ctor_generator g) (pos (ctor_generator g)) * 0.1 :: ws'), g'.
    simpl. split; [reflexivity | now rewrite Hlen].
Qed.

Lemma rbm_ctor_inv (L : Layer) (g : rand) (r : rbm) (g' : rand) :
  rbm_ctor L g = Ok (r, g') ->
  static_asserts L g = Ok (tt, g) /\
  (exists ws, List.length ws = (num_visible L * num_hidden L)%nat /\
              w r = mk_matrix (num_hidden L) ws) /\
  b r = zero_vector (num_hidden L) /\
  c r = zero_vector (num_visible L) /\
  gr_w_ref r = slot_w /\ gr_b_ref r = slot_b /\
  learning_rate r = initial_learning_rate L.
Proof.
  unfold rbm_ctor. intros H.
  apply bind_ok in H. destruct H as ([] & g1 & Hs & H).
  assert (g1 = g) as ->.
  { unfold static_asserts in Hs.
    repeat match type of Hs with
           | (if ?t then _ else _) _ = _ => destruct t
           end; unfold ret, fail in Hs; congruence. }
  split; [exact Hs|].
  apply bind_ok in H. destruct H as (ws & g2 & Hws & H).
  destruct (init_elements_ok (data (w (members L))) g) as (ws' & g3 & Heq & Hlen).
  rewrite Heq in Hws. injection Hws as <- <-.
  unfold ret in H. injection H as <- <-.
  repeat split; try reflexivity.
  exists ws'. split; [|reflexivity].
  rewrite Hlen. unfold members, w, zero_matrix. simpl. apply repeat_length.
Qed.

Lemma rbm_ctor_succeeds (L : Layer) (g : rand) :
  static_asserts L g = Ok (tt, g) ->
  exists r g', rbm_ctor L g = Ok (r, g').
Proof.
  intros Hs. unfold rbm_ctor. unfold bind at 1. rewrite Hs.
  destruct (init_elements_ok (data (w (members L))) g) as (ws' & g3 & Heq & _).
  unfold bind at 1. rewrite Heq. unfold ret. eauto.
Qed.

Lemma rbm_ctor_shaped (L : Layer) (g : rand) (r : rbm) (g' : rand) :
  rbm_ctor L g = Ok (r, g') -> shaped L r.
Proof.
  intros H. apply rbm_ctor_inv in H.
  destruct H as (_ & (ws & Hlen & Hw) & Hb & Hc & _).
  unfold shaped. rewrite Hw, Hb, Hc. simpl.
  unfold zero_vector. rewrite !repeat_length. auto.
Qed.

Lemma rbm_ctor_members_tmp (L : Layer) (g : rand) (r : rbm) (g' : rand) :
  rbm_ctor L g = Ok (r, g') ->
  vecs r slot_gr_b_tmp = zero_vector (num_hidden_gra L).
Proof.
  unfold rbm_ctor. intros H.
  apply bind_ok in H. destruct H as ([] & g1 & _ & H).
  apply bind_ok in H. destruct H as (ws & g2 & _ & H).
  unfold ret in H. injection H as <- <-. reflexivity.
Qed.

(** C10.  After construction the [learning_rate] inherited from [rbm_base] is
    1e-5 when the visible units are GAUSSIAN and the hidden units are a ReLU
    variant, 1e-3 when exactly one of the two holds, and 1e-1 otherwise. *)
Theorem learning_rate_after_construction
    (L : Layer) (g : rand) (r : rbm) (g' : rand) :
  rbm_ctor L g = Ok (r, g') ->
  (visible_unit L = GAUSSIAN /\ is_relu (hidden_unit L) = true ->
     learning_rate r = 1e-5) /\
  ((visible_unit L = GAUSSIAN /\ is_relu (hidden_unit L) = false) \/
   (visible_unit L <> GAUSSIAN /\ is_relu (hidden_unit L) = true) ->
     learning_rate r = 1e-3) /\
  (visible_unit L <> GAUSSIAN /\ is_relu (hidden_unit L) = false ->
     learning_rate r = 1e-1).
Proof.
  intros H. apply rbm_ctor_inv in H.
  destruct H as (_ & _ & _ & _ & _ & _ & ->).
  unfold initial_learning_rate.
  destruct (visible_unit L), (hidden_unit L); simpl;
    repeat split; intros; intuition (try congruence; try discriminate).
Qed.

Lemma learning_rate_after_construction_witness :
  exists r g',
    rbm_ctor layer_4_2 (constant_rand 0) = Ok (r, g') /\
    learning_rate r = 1e-1.
Proof.
  pose proof (learning_rate_after_construction layer_4_2 (constant_rand 0)) as T.
  unfold rbm_ctor, static_asserts, bind, ret in T. simpl in T.
  eexists. eexists. split.
  - unfold rbm_ctor, static_asserts, bind, ret. simpl. reflexivity.
  - apply (T _ _ eq_refl). split; [discriminate | reflexivity].
Defined.

(** The configurations the two [static_assert]s reject. *)
Lemma ctor_rejects_unsupported_units (L : Layer) (g : rand) :
  visible_unit L = SOFTMAX \/ visible_unit L = EXP \/ hidden_unit L = GAUSSIAN ->
  exists msg, rbm_ctor L g = Fault (StaticAssert msg).
Proof.
  intros H. unfold rbm_ctor, static_asserts, bind.
  destruct H as [H | [H | H]]; rewrite H; simpl; eauto.
  destruct (visible_unit L); simpl; eauto.
Qed.

Lemma ctor_accepts_supported_units (L : Layer) (g : rand) (r : rbm) (g' : rand) :
  rbm_ctor L g = Ok (r, g') ->
  visible_unit L <> SOFTMAX /\ visible_unit L <> EXP /\ hidden_unit L <> GAUSSIAN.
Proof.
  intros H. apply rbm_ctor_inv in H. destruct H as (H & _).
  unfold static_asserts in H.
  destruct (visible_unit L), (hidden_unit L); simpl in H;
    try discriminate; repeat split; discriminate.
Qed.

(** With a configuration the constructor accepts, [activate_hidden] never
    reaches its "Invalid path". *)
Lemma activate_hidden_invalid_path_unreachable
    (L : Layer) (h_a h_s v_a v_s bv : vector) (wm : matrix) (g : rand) (msg : string) :
  hidden_unit L <> GAUSSIAN ->
  activate_hidden_with L h_a h_s v_a v_s bv wm g <> Fault (Unreachable msg).
Proof.
  intros Hhu H. unfold activate_hidden_with in H.
  destruct (unit_type_eqb (hidden_unit L) SOFTMAX) eqn:Hsm.
  - unfold bind in H.
    match type of H with
    | match ?m with _ => _ end = _ => destruct m as [[a g1] | f] eqn:Hloop
    end; [discriminate|].
    injection H as ->. unfold for_range_M in Hloop.
    apply for_each_M_fault in Hloop. destruct Hloop as (k & s' & g' & _ & Hf).
    unfold bind, assert_finite, fail, ret in Hf.
    destruct (xquot _ _); discriminate.
  - unfold for_range_M in H. apply for_each_M_fault in H.
    destruct H as (k & [a s] & g' & _ & Hf).
    destruct (hidden_unit L); try congruence; try discriminate;
      unfold bind, draw_hidden_uniform, draw_hidden_noise, assert_finite,
        fail, ret in Hf;
      simpl in Hf; try discriminate;
      first [destruct (xexp _); discriminate | destruct (_ || _); discriminate].
Qed.

(** C8.  The configuration with RELU1 visible units is accepted by both
    [static_assert]s, and on the instance so constructed [activate_visible]
    reaches [dll_unreachable("Invalid path")]; so does [reconstruct]. *)
Theorem visible_relu1_reaches_invalid_path (g : rand) :
  exists r g',
    rbm_ctor layer_relu1_visible g = Ok (r, g') /\
    (forall h_a h_s v_a v_s g1,
        activate_visible layer_relu1_visible r h_a h_s v_a v_s g1
        = Fault (Unreachable "Invalid path")) /\
    (forall x g1,
        reconstruct layer_relu1_visible [x] r g1
        = Fault (Unreachable "Invalid path")).
Proof.
  destruct (rbm_ctor_succeeds layer_relu1_visible g eq_refl) as (r & g' & H).
  exists r, g'. split; [exact H | split].
  - intros. reflexivity.
  - intros x g1. apply rbm_ctor_inv in H.
    destruct H as (_ & _ & Hb & _).
    unfold reconstruct, dll_assert. simpl.
    unfold bind at 1. unfold ret at 1.
    unfold bind at 1.
    unfold activate_hidden, activate_hidden_with, b, h1_a, h1_s. simpl.
    unfold b in Hb. rewrite Hb. simpl.
    unfold for_range_M. simpl. reflexivity.
Qed.

(** *** Persistence *)

Lemma binary_write_all_app (os container : list weight) :
  binary_write_all os container = os ++ container.
Proof.
  unfold binary_write_all. revert os.
  induction container as [|v t IH]; intros os; simpl.
  - now rewrite app_nil_r.
  - rewrite IH, <- app_assoc. reflexivity.
Qed.

Lemma binary_load_all_app (xs rest container : list weight) :
  List.length xs = List.length container ->
  binary_load_all (xs ++ rest) container = (rest, xs).
Proof.
  revert xs. induction container as [|v t IH]; intros [|x xs] H; simpl in *;
    try discriminate H.
  - now destruct rest.
  - rewrite IH by congruence. reflexivity.
Qed.

Lemma store_sequence (r : rbm) (os : list weight) :
  store r os = os ++ data (w r) ++ b r ++ c r.
Proof.
  unfold store. rewrite !binary_write_all_app, <- !app_assoc. reflexivity.
Qed.

Lemma load_sequence (r r0 : rbm) (rest : list weight) :
  List.length (data (w r)) = List.length (data (w r0)) ->
  List.length (b r) = List.length (b r0) ->
  List.length (c r) = List.length (c r0) ->
  load (data (w r) ++ b r ++ c r ++ rest) r0
  = (rest,
     set_vec slot_c (c r)
       (set_vec slot_b (b r)
          (set_mat slot_w (mk_matrix (cols (w r0)) (data (w r))) r0))).
Proof.
  intros Hw Hb Hc. unfold load.
  rewrite binary_load_all_app by exact Hw.
  change (b (set_mat slot_w _ r0)) with (b r0).
  rewrite binary_load_all_app by exact Hb.
  change (c (set_vec slot_b _ (set_mat slot_w _ r0))) with (c r0).
  rewrite binary_load_all_app by exact Hc.
  reflexivity.
Qed.

(** C6.  [store] writes the elements of [w] in row-major order
    ([num_visible * num_hidden] values), then those of [b] ([num_hidden]
    values), then those of [c] ([num_visible] values), and nothing else; and
    [load], on an instance of the same shape, reads back the [w], [b] and [c]
    that were stored, consuming exactly what [store] wrote. *)
Theorem store_load_round_trip (L : Layer) (r r0 : rbm) (os rest : list weight) :
  shaped L r -> shaped L r0 ->
  store r os = os ++ data (w r) ++ b r ++ c r /\
  (forall i j, (i < num_visible L)%nat -> (j < num_hidden L)%nat ->
     nth (i * num_hidden L + j) (store r []) 0 = mget (w r) i j) /\
  (forall j, (j < num_hidden L)%nat ->
     nth (num_visible L * num_hidden L + j) (store r []) 0 = vget (b r) j) /\
  (forall i, (i < num_visible L)%nat ->
     nth (num_visible L * num_hidden L + num_hidden L + i) (store r []) 0
     = vget (c r) i) /\
  List.length (store r [])
    = (num_visible L * num_hidden L + num_hidden L + num_visible L)%nat /\
  fst (load (store r [] ++ rest) r0) = rest /\
  w (snd (load (store r [] ++ rest) r0)) = w r /\
  b (snd (load (store r [] ++ rest) r0)) = b r /\
  c (snd (load (store r [] ++ rest) r0)) = c r.
Proof.
  intros (Hcols & Hw & Hb & Hc) (Hcols0 & Hw0 & Hb0 & Hc0).
  split; [apply store_sequence|].
  rewrite store_sequence. simpl.
  assert (Hidx : forall i j, (i < num_visible L)%nat -> (j < num_hidden L)%nat ->
                             (i * num_hidden L + j < num_visible L * num_hidden L)%nat).
  { intros i j Hi Hj.
    apply Nat.lt_le_trans with (S i * num_hidden L)%nat; [simpl; lia|].
    apply Nat.mul_le_mono_r. lia. }
  split; [|split; [|split; [|split]]].
  - intros i j Hi Hj. unfold mget. rewrite Hcols.
    apply app_nth1. rewrite Hw. now apply Hidx.
  - intros j Hj. rewrite app_nth2 by lia. rewrite Hw.
    replace (_ + j - _)%nat with j by lia.
    apply app_nth1. lia.
  - intros i Hi. rewrite app_nth2 by lia. rewrite Hw.
    replace (_ + _ + i - _)%nat with (num_hidden L + i)%nat by lia.
    rewrite app_nth2 by lia. rewrite Hb.
    replace (_ + i - _)%nat with i by lia. reflexivity.
  - rewrite !length_app. lia.
  - rewrite <- !app_assoc. rewrite load_sequence by congruence. simpl.
    repeat split.
    rewrite Hcols0, <- Hcols. now destruct (w r).
Qed.

Lemma store_load_round_trip_witness :
  store (zero_rbm layer_4_2) [] = repeat 0 14 /\
  w (snd (load (store (zero_rbm layer_4_2) []) (zero_rbm layer_4_2)))
  = w (zero_rbm layer_4_2).
Proof.
  assert (Hs : shaped layer_4_2 (zero_rbm layer_4_2)).
  { unfold shaped. simpl. repeat split; reflexivity. }
  pose proof (store_load_round_trip layer_4_2 _ _ [] [] Hs Hs)
    as (H1 & _ & _ & _ & _ & _ & H2 & _).
  split.
  - rewrite H1. reflexivity.
  - rewrite app_nil_r in H2. exact H2.
Defined.

(** *** Hidden activation *)

Lemma logistic_sigmoid_0 : logistic_sigmoid 0 = 0.5.
Proof. unfold logistic_sigmoid. rewrite Ropp_0, exp_0. lra. Qed.




Lemma std_clamp_eq (x u : weight) :
  0 <= u -> std_min (std_max 0 x) u = clamp x 0 u.
Proof.
  intros Hu. unfold std_min, std_max, clamp.
  destruct (Rlt_dec 0 x), (Rlt_dec x 0); try lra;
    destruct (Rlt_dec u _); try lra; destruct (Rlt_dec u x); lra.
Qed.

Lemma clamp_range (x u : weight) : 0 <= u -> 0 <= clamp x 0 u <= u.
Proof.
  intros Hu. unfold clamp.
  destruct (Rlt_dec x 0); [lra|]. destruct (Rlt_dec u x); lra.
Qed.

Lemma weight_eqb_true (x y : weight) : weight_eqb x y = true <-> x = y.
Proof. unfold weight_eqb. destruct (Req_dec_T x y); split; congruence. Qed.

Lemma weight_eqb_false (x y : weight) : weight_eqb x y = false <-> x <> y.
Proof. unfold weight_eqb. destruct (Req_dec_T x y); split; congruence. Qed.

(** The range of the finite doubles. *)
Lemma min_positive_pos : 0 < min_positive.
Proof. unfold min_positive. apply Rinv_0_lt_compat, IZR_lt. reflexivity. Qed.











(** The loops of the static [activate_hidden], for a configuration, a visible
    activation vector, a hidden bias and a weight matrix. *)
Section HiddenLoops.

Variable L : Layer.
Variables v_a bv : vector.
Variable wm : matrix.

Lemma hidden_sum_big_sum (j : nat) :
  hidden_sum L wm v_a j
  = big_sum (fun i => mget wm i j * vget v_a i) (num_visible L).
Proof. unfold hidden_sum. rewrite for_range_accumulate. lra. Qed.

Lemma binary_activate_hidden_with (h_a h_s v_s : vector) (g : rand) :
  hidden_unit L = BINARY ->
  List.length h_a = num_hidden L ->
  List.length h_s = num_hidden L ->
  exists a s g',
    activate_hidden_with L h_a h_s v_a v_s bv wm g = Ok ((a, s), g') /\
    List.length a = num_hidden L /\
    forall j, (j < num_hidden L)%nat ->
      vget a j = logistic_sigmoid (total_input L bv wm v_a j).
Proof.
  intros Hhu Ha Hs. unfold activate_hidden_with. rewrite Hhu. simpl.
  pose (P := fun (k : nat) (st : vector * vector) (_ : rand) =>
    List.length (fst st) = num_hidden L /\
    List.length (snd st) = num_hidden L /\
    forall j, (j < k)%nat ->
      vget (fst st) j = logistic_sigmoid (total_input L bv wm v_a j)).
  match goal with |- context [for_range_M 0 _ ?body ?s0 g] =>
    destruct (for_range_M_invariant P 0 (num_hidden L) body s0 g)
      as ([a s] & g' & Hrun & Hlen & _ & Hact)
  end.
  - lia.
  - unfold P. simpl. rewrite !length_vfill. repeat split; auto. intros; lia.
  - intros k [a s] g1 Hk (Hla & Hls & Hact). simpl in *.
    eexists. eexists. split; [reflexivity|].
    unfold P. simpl. rewrite !length_vset. repeat split; auto.
    intros j Hj. destruct (Nat.eq_dec j k) as [-> | Hne].
    + rewrite vget_vset_same by lia.
      unfold total_input. now rewrite hidden_sum_big_sum.
    + rewrite vget_vset_other by congruence. apply Hact. lia.
  - exists a, s, g'. auto.
Qed.



(** The loop of [activate_hidden] for a clamped rectified unit with upper
    clamp [u]: RELU1 is [u = 1], RELU6 is [u = 6]. *)
Lemma clamped_relu_loop (u : R) (h_a h_s : vector) (g : rand) :
  0 <= u ->
  List.length h_a = num_hidden L ->
  List.length h_s = num_hidden L ->
  let x := total_input L bv wm v_a in
  let z := fun j => draws (hidden_normal g)
                          (pos (hidden_normal g) + interior_before u x j) in
  exists a s,
    for_range_M 0 (num_hidden L) (fun j '(h_a, h_s) =>
      let s := hidden_sum L wm v_a j in
      let x := vget bv j + s in
      let a := std_min (std_max 0 x) u in
      if weight_eqb a 0 || weight_eqb a u then
        ret (vset h_a j a, vset h_s j a)
      else
        n <- draw_hidden_noise 1 ;;
        ret (vset h_a j a, vset h_s j (std_min (std_max 0 (x + n)) u)))
      (h_a, h_s) g
    = Ok ((a, s),
          mk_rand (ctor_generator g) (hidden_uniform g)
                  (mk_generator (draws (hidden_normal g))
                     (pos (hidden_normal g) + interior_before u x (num_hidden L)))
                  (visible_uniform g) (visible_normal g)) /\
    List.length a = num_hidden L /\
    List.length s = num_hidden L /\
    forall j, (j < num_hidden L)%nat ->
      vget a j = clamp (x j) 0 u /\
      0 <= vget s j <= u /\
      (vget a j = 0 \/ vget a j = u -> vget s j = vget a j) /\
      (vget a j <> 0 /\ vget a j <> u -> vget s j = clamp (x j + z j) 0 u).
Proof.
  intros Hu Ha Hs x z.
  pose (Q := fun (j : nat) (aj sj : R) =>
    aj = clamp (x j) 0 u /\
    0 <= sj <= u /\
    (aj = 0 \/ aj = u -> sj = aj) /\
    (aj <> 0 /\ aj <> u -> sj = clamp (x j + z j) 0 u)).
  pose (P := fun (k : nat) (st : vector * vector) (g1 : rand) =>
    List.length (fst st) = num_hidden L /\
    List.length (snd st) = num_hidden L /\
    g1 = mk_rand (ctor_generator g) (hidden_uniform g)
           (mk_generator (draws (hidden_normal g))
              (pos (hidden_normal g) + interior_before u x k))
           (visible_uniform g) (visible_normal g) /\
    forall j, (j < k)%nat -> Q j (vget (fst st) j) (vget (snd st) j)).
  match goal with |- context [for_range_M 0 _ ?body ?s0 g] =>
    destruct (for_range_M_invariant P 0 (num_hidden L) body s0 g)
      as ([a s] & g' & Hrun & Hla & Hls & -> & HQ)
  end.
  - lia.
  - unfold P. simpl. rewrite Nat.add_0_r.
    split; [exact Ha | split; [exact Hs | split]].
    + now destruct g as [? ? [? ?] ? ?].
    + intros; lia.
  - intros k [a s] g1 Hk (Hla & Hls & -> & HQ). simpl in Hla, Hls, HQ.
    assert (Hx : vget bv k + hidden_sum L wm v_a k = x k).
    { unfold x, total_input. now rewrite hidden_sum_big_sum. }
    cbv zeta. rewrite Hx, std_clamp_eq by exact Hu.
    pose proof (clamp_range (x k) u Hu) as Hrange.
    assert (Hcount : interior_before u x (S k)
                     = (interior_before u x k
                        + (if on_boundary u (x k) then 0 else 1))%nat)
      by reflexivity.
    destruct (weight_eqb (clamp (x k) 0 u) 0 || weight_eqb (clamp (x k) 0 u) u)
      eqn:Hb.
    + eexists. eexists. split; [reflexivity|].
      unfold P. simpl fst. simpl snd. rewrite !length_vset.
      rewrite Hcount. unfold on_boundary. rewrite Hb, Nat.add_0_r.
      split; [exact Hla | split; [exact Hls | split; [reflexivity|]]].
      intros j Hj. destruct (Nat.eq_dec j k) as [-> | Hne].
      * rewrite !vget_vset_same by lia. unfold Q. repeat split; try tauto; try lra.
        intros [H0 Hu']. apply orb_true_iff in Hb.
        rewrite !weight_eqb_true in Hb. tauto.
      * rewrite !vget_vset_other by congruence. apply HQ. lia.
    + unfold bind, draw_hidden_noise, next, ret. simpl.
      eexists. eexists. split; [reflexivity|].
      unfold P. simpl fst. simpl snd. rewrite !length_vset.
      rewrite Hcount. unfold on_boundary. rewrite Hb.
      split; [exact Hla | split; [exact Hls | split]].
      * do 2 f_equal. lia.
      * intros j Hj. destruct (Nat.eq_dec j k) as [-> | Hne].
        -- rewrite !vget_vset_same by lia. rewrite Rmult_1_l.
           rewrite std_clamp_eq by exact Hu.
           apply orb_false_iff in Hb. rewrite !weight_eqb_false in Hb.
           unfold Q. repeat split; try tauto.
           ++ apply clamp_range, Hu.
           ++ apply clamp_range, Hu.
        -- rewrite !vget_vset_other by congruence. apply HQ. lia.
  - exists a, s. simpl in Hla, Hls, HQ.
    split; [exact Hrun | split; [exact Hla | split; [exact Hls | exact HQ]]].
Qed.

End HiddenLoops.

(** C9.  With BINARY hidden units [activate_hidden] sets each hidden
    activation [h_a(j)] to the logistic sigmoid of
    [b(j) + sum_i w(i, j) * v_a[i]]; the result does not depend on the
    visible sample [v_s].  In the scenario of four visible and two hidden
    units with all weights and biases zero and input [1, 0, 1, 0], every
    hidden activation is 0.5. *)
Theorem binary_hidden_activation :
  (forall (L : Layer) (r : rbm) (h_a h_s v_a v_s : vector) (g : rand),
     hidden_unit L = BINARY ->
     List.length h_a = num_hidden L ->
     List.length h_s = num_hidden L ->
     exists a s g',
       activate_hidden L r h_a h_s v_a v_s g = Ok ((a, s), g') /\
       List.length a = num_hidden L /\
       (forall j, (j < num_hidden L)%nat ->
          vget a j = logistic_sigmoid (total_input L (b r) (w r) v_a j)) /\
       (forall v_s', activate_hidden L r h_a h_s v_a v_s' g = Ok ((a, s), g')))
  /\
  (forall (h_a h_s v_s : vector) (g : rand),
     List.length h_a = 2%nat -> List.length h_s = 2%nat ->
     exists s g',
       activate_hidden layer_4_2 (zero_rbm layer_4_2) h_a h_s [1; 0; 1; 0] v_s g
       = Ok (([0.5; 0.5], s), g')).
Proof.
  assert (General : forall (L : Layer) (r : rbm) (h_a h_s v_a v_s : vector) (g : rand),
     hidden_unit L = BINARY ->
     List.length h_a = num_hidden L ->
     List.length h_s = num_hidden L ->
     exists a s g',
       activate_hidden L r h_a h_s v_a v_s g = Ok ((a, s), g') /\
       List.length a = num_hidden L /\
       (forall j, (j < num_hidden L)%nat ->
          vget a j = logistic_sigmoid (total_input L (b r) (w r) v_a j)) /\
       (forall v_s', activate_hidden L r h_a h_s v_a v_s' g = Ok ((a, s), g'))).
  { intros L r h_a h_s v_a v_s g Hhu Ha Hs. unfold activate_hidden.
    destruct (binary_activate_hidden_with L v_a (b r) (w r) h_a h_s v_s g Hhu Ha Hs)
      as (a & s & g' & Hrun & Hlen & Hact).
    exists a, s, g'. repeat split; auto. }
  split; [exact General|].
  intros h_a h_s v_s g Ha Hs.
  destruct (General layer_4_2 (zero_rbm layer_4_2) h_a h_s [1; 0; 1; 0] v_s g
              eq_refl Ha Hs) as (a & s & g' & Hrun & Hlen & Hact & _).
  exists s, g'. rewrite Hrun. do 3 f_equal.
  assert (H0 : vget a 0 = 0.5).
  { rewrite Hact by (simpl; lia). rewrite <- logistic_sigmoid_0. f_equal.
    unfold total_input, mget, vget. simpl. lra. }
  assert (H1 : vget a 1 = 0.5).
  { rewrite Hact by (simpl; lia). rewrite <- logistic_sigmoid_0. f_equal.
    unfold total_input, mget, vget. simpl. lra. }
  destruct a as [|a0 [|a1 [|a2 t]]]; simpl in Hlen; try discriminate.
  unfold vget in H0, H1. simpl in H0, H1. now subst.
Qed.

Lemma binary_hidden_activation_witness :
  (exists a s g',
     activate_hidden layer_4_2 (zero_rbm layer_4_2) [0; 0] [0; 0] [1; 1; 1; 1]
                     [0; 0; 0; 0] (constant_rand 0.5)
     = Ok ((a, s), g') /\
     vget a 1 = logistic_sigmoid
                  (total_input layer_4_2 (b (zero_rbm layer_4_2))
                               (w (zero_rbm layer_4_2)) [1; 1; 1; 1] 1))
  /\
  (exists s g',
     activate_hidden layer_4_2 (zero_rbm layer_4_2) [0; 0] [0; 0] [1; 0; 1; 0]
                     [1; 0; 1; 0] (constant_rand 0.5)
     = Ok (([0.5; 0.5], s), g')).
Proof.
  split.
  - destruct (proj1 binary_hidden_activation layer_4_2 (zero_rbm layer_4_2)
                [0; 0] [0; 0] [1; 1; 1; 1] [0; 0; 0; 0] (constant_rand 0.5)
                eq_refl eq_refl eq_refl)
      as (a & s & g' & Hrun & _ & Hact & _).
    exists a, s, g'. split; [exact Hrun|]. apply Hact. simpl. lia.
  - apply (proj2 binary_hidden_activation [0; 0] [0; 0] [1; 0; 1; 0]
                 (constant_rand 0.5)); reflexivity.
Defined.








(** *** Clamped rectified units *)

(** C4.  With RELU1 (upper clamp 1) or RELU6 (upper clamp 6) hidden units,
    the activation of hidden unit [j] with total input [x] is
    [clamp(x, 0, upper)]; its sample lies between 0 and the upper clamp; when
    the activation is 0 or the upper clamp the sample is the activation, and
    otherwise it is [clamp(x + noise, 0, upper)] with [noise] the next
    standard normal variate.  The variates are drawn by the units whose
    activation is strictly between the clamps and by no other: the generator
    advances by the number of those units, and the other generators are not
    touched. *)
Theorem clamped_relu_hidden_activation (L : Layer) (r : rbm)
    (h_a h_s v_a v_s : vector) (g : rand) :
  hidden_unit L = RELU1 \/ hidden_unit L = RELU6 ->
  List.length h_a = num_hidden L ->
  List.length h_s = num_hidden L ->
  let u := relu_upper (hidden_unit L) in
  let x := total_input L (b r) (w r) v_a in
  let z := fun j => draws (hidden_normal g)
                          (pos (hidden_normal g) + interior_before u x j) in
  exists a s g',
    activate_hidden L r h_a h_s v_a v_s g = Ok ((a, s), g') /\
    (forall j, (j < num_hidden L)%nat ->
       vget a j = clamp (x j) 0 u /\
       0 <= vget s j <= u /\
       (vget a j = 0 \/ vget a j = u -> vget s j = vget a j) /\
       (vget a j <> 0 /\ vget a j <> u -> vget s j = clamp (x j + z j) 0 u)) /\
    pos (hidden_normal g')
      = (pos (hidden_normal g) + interior_before u x (num_hidden L))%nat /\
    draws (hidden_normal g') = draws (hidden_normal g) /\
    ctor_generator g' = ctor_generator g /\
    hidden_uniform g' = hidden_uniform g /\
    visible_uniform g' = visible_uniform g /\
    visible_normal g' = visible_normal g.
Proof.
  intros Hhu Ha Hs u x z.
  unfold activate_hidden, activate_hidden_with.
  destruct Hhu as [Hhu | Hhu]; subst u x z; rewrite Hhu; simpl.
  - destruct (clamped_relu_loop L v_a (b r) (w r) 1 (vfill h_a 0) (vfill h_s 0) g)
      as (a & s & Hrun & _ & _ & HQ);
      [lra | now rewrite length_vfill | now rewrite length_vfill |].
    exists a, s. eexists. split; [exact Hrun|].
    split; [exact HQ|]. simpl. repeat split.
  - destruct (clamped_relu_loop L v_a (b r) (w r) 6 (vfill h_a 0) (vfill h_s 0) g)
      as (a & s & Hrun & _ & _ & HQ);
      [lra | now rewrite length_vfill | now rewrite length_vfill |].
    exists a, s. eexists. split; [exact Hrun|].
    split; [exact HQ|]. simpl. repeat split.
Qed.

Lemma clamped_relu_hidden_activation_witness :
  exists a s g',
    activate_hidden layer_4_2_relu1 (zero_rbm layer_4_2_relu1)
                    [0; 0] [0; 0] [1; 0; 1; 0] [1; 0; 1; 0] (constant_rand 0.5)
    = Ok ((a, s), g') /\
    vget a 0 = 0 /\ vget s 0 = 0 /\ pos (hidden_normal g') = 0%nat.
Proof.
  destruct (clamped_relu_hidden_activation layer_4_2_relu1
              (zero_rbm layer_4_2_relu1) [0; 0] [0; 0] [1; 0; 1; 0] [1; 0; 1; 0]
              (constant_rand 0.5) (or_introl eq_refl) eq_refl eq_refl)
    as (a & s & g' & Hrun & HQ & Hpos & _).
  assert (Hx : forall j, (j < 2)%nat ->
             total_input layer_4_2_relu1 (b (zero_rbm layer_4_2_relu1))
               (w (zero_rbm layer_4_2_relu1)) [1; 0; 1; 0] j = 0).
  { intros [|[|j]] Hj; try lia; unfold total_input, mget, vget; simpl; lra. }
  assert (Hc : clamp 0 0 1 = 0).
  { unfold clamp. destruct (Rlt_dec 0 0); [lra|]. destruct (Rlt_dec 1 0); lra. }
  destruct (HQ 0%nat ltac:(simpl; lia)) as (Ha0 & _ & Hs0 & _).
  simpl relu_upper in *. rewrite Hx, Hc in Ha0 by lia.
  exists a, s, g'. split; [exact Hrun|]. split; [exact Ha0|].
  split; [rewrite Hs0; auto|].
  rewrite Hpos. simpl.
  unfold on_boundary. rewrite !Hx by lia. rewrite Hc.
  assert (E : weight_eqb 0 0 = true) by now apply weight_eqb_true.
  rewrite E. reflexivity.
Defined.

(** *** Warm start of the visible biases *)

Lemma count_loop_ones_count (training_data : list vector) (i : nat) (n0 : nat) :
  fold_left (fun count items =>
               if weight_eqb (vget items i) 1 then S count else count)
            training_data n0
  = (n0 + ones_count training_data i)%nat.
Proof.
  unfold ones_count. revert n0.
  induction training_data as [|items t IH]; intros n0; simpl; [lia|].
  rewrite IH. destruct (weight_eqb (vget items i) 1); simpl; lia.
Qed.

Lemma empirical_p_pos (training_data : list vector) (i : nat) :
  training_data <> [] -> 0 < empirical_p training_data i.
Proof.
  intros Hne. unfold empirical_p.
  assert (0 < INR (List.length training_data)).
  { apply lt_0_INR. destruct training_data; [congruence | simpl; lia]. }
  assert (0 <= INR (ones_count training_data i)) by apply pos_INR.
  assert (0 <= INR (ones_count training_data i) / INR (List.length training_data)).
  { apply Rmult_le_pos; [assumption|]. left. now apply Rinv_0_lt_compat. }
  lra.
Qed.

(** The value [init_weights] is about to store in [c(i)], before the
    assertion on it. *)
Lemma logit_value (training_data : list vector) (i : nat) :
  training_data <> [] ->
  let p := empirical_p training_data i in
  xlog (xdiv (xplus (xdiv (Some (INR (ones_count training_data i)))
                          (Some (INR (List.length training_data))))
                    (Some 0.0001))
             (xminus (Some 1)
                (xplus (xdiv (Some (INR (ones_count training_data i)))
                             (Some (INR (List.length training_data))))
                       (Some 0.0001))))
  = if Rlt_dec p 1 then Some (ln (p / (1 - p))) else None.
Proof.
  intros Hne p. pose proof (empirical_p_pos training_data i Hne) as Hpos.
  fold p in Hpos.
  assert (Hn : INR (List.length training_data) <> 0).
  { apply not_0_INR. destruct training_data; [congruence | simpl; lia]. }
  unfold xdiv at 2 3. destruct (Req_dec_T _ 0) as [Hz | _]; [contradiction|].
  simpl xplus. simpl xminus. fold (empirical_p training_data i). fold p.
  unfold xdiv. destruct (Req_dec_T (1 - p) 0) as [Hz | Hnz].
  - simpl. destruct (Rlt_dec p 1); [lra | reflexivity].
  - unfold xlog. destruct (Rlt_dec p 1) as [Hlt | Hge].
    + destruct (Rlt_dec 0 (p / (1 - p))) as [_ | Hn0]; [reflexivity|].
      exfalso. apply Hn0. apply Rdiv_lt_0_compat; lra.
    + destruct (Rlt_dec 0 (p / (1 - p))) as [Hq | _]; [|reflexivity].
      exfalso. assert (Hneg : 1 - p < 0) by lra.
      assert (Hinv : / (1 - p) < 0) by now apply Rinv_lt_0_compat.
      unfold Rdiv in Hq. nra.
Qed.

Lemma bounded_all_or_exists (p : nat -> R) (k : nat) :
  (forall i, (i < k)%nat -> p i < 1) \/ (exists i, (i < k)%nat /\ 1 <= p i).
Proof.
  induction k as [|k [IH | (i & Hi & Hp)]].
  - left. intros; lia.
  - destruct (Rlt_dec (p k) 1) as [Hlt | Hge].
    + left. intros i Hi. destruct (Nat.eq_dec i k) as [-> | Hne]; [exact Hlt|].
      apply IH. lia.
    + right. exists k. split; [lia | lra].
  - right. exists i. split; [lia | exact Hp].
Qed.

Lemma init_weights_rounds (L : Layer) (training_data : list vector) (r : rbm)
    (g : rand) (k : nat) (body : nat -> rbm -> M rbm) :
  training_data <> [] ->
  List.length (c r) = num_visible L ->
  (k <= num_visible L)%nat ->
  body = (fun i r =>
    let count := fold_left (fun count items =>
                   if weight_eqb (vget items i) 1 then S count else count)
                 training_data 0%nat in
    let pi := xdiv (Some (INR count)) (Some (INR (List.length training_data))) in
    let pi := xplus pi (Some 0.0001) in
    ci <- assert_finite (xlog (xdiv pi (xminus (Some 1) pi))) "NaN verify" ;;
    ret (set_vec slot_c (vset (c r) i ci) r)) ->
  ((forall i, (i < k)%nat -> empirical_p training_data i < 1) ->
   exists r', for_range_M 0 k body r g = Ok (r', g)
              /\ warm_started L training_data r k r') /\
  ((exists i, (i < k)%nat /\ 1 <= empirical_p training_data i) ->
   for_range_M 0 k body r g = Fault (Assertion "NaN verify")).
Proof.
  intros Hne Hc Hk Hbody.
  assert (Hstep : forall i r1,
    body i r1 g
    = if Rlt_dec (empirical_p training_data i) 1
      then Ok (set_vec slot_c
                 (vset (c r1) i (ln (empirical_p training_data i
                                     / (1 - empirical_p training_data i)))) r1, g)
      else Fault (Assertion "NaN verify")).
  { intros i r1. rewrite Hbody. cbv zeta.
    rewrite count_loop_ones_count. simpl (0 + _)%nat.
    rewrite logit_value by exact Hne. cbv zeta.
    destruct (Rlt_dec (empirical_p training_data i) 1); reflexivity. }
  clear Hbody.
  induction k as [|k IH].
  - split.
    + intros _. exists r. split; [reflexivity|].
      unfold warm_started. repeat split; auto. intros; lia.
    + intros (i & Hi & _). lia.
  - destruct (IH ltac:(lia)) as (IHok & IHfail). clear IH.
    rewrite for_range_M_step by lia. split.
    + intros Hall.
      destruct IHok as (r1 & Hrun & Hlen & Hval & Hm & Hv & Hrest);
        [intros; apply Hall; lia|].
      unfold bind. rewrite Hrun, Hstep.
      destruct (Rlt_dec (empirical_p training_data k) 1) as [_ | Hge];
        [|exfalso; apply Hge, Hall; lia].
      eexists. split; [reflexivity|].
      unfold warm_started, c. simpl.
      fold (c r1). rewrite length_vset.
      split; [exact Hlen|]. split; [|split; [exact Hm|split; [|exact Hrest]]].
      * intros i Hi. destruct (Nat.eq_dec i k) as [-> | Hne'].
        -- apply vget_vset_same. lia.
        -- rewrite vget_vset_other by congruence. apply Hval. lia.
      * intros s Hs. destruct (vec_slot_eq_dec s slot_c); [contradiction|].
        now apply Hv.
    + intros (i & Hi & Hp).
      destruct (bounded_all_or_exists (empirical_p training_data) k)
        as [Hall | Hex].
      * destruct (IHok Hall) as (r1 & Hrun & _).
        unfold bind. rewrite Hrun, Hstep.
        assert (i = k) as ->.
        { destruct (Nat.eq_dec i k); [assumption|].
          specialize (Hall i ltac:(lia)). lra. }
        destruct (Rlt_dec (empirical_p training_data k) 1); [lra | reflexivity].
      * unfold bind. now rewrite (IHfail Hex).
Qed.

Ltac decide_weight_eqb :=
  unfold weight_eqb; simpl;
  repeat match goal with
         | |- context [Req_dec_T ?x ?y] => destruct (Req_dec_T x y); try lra
         end.

Lemma balanced_data_p (i : nat) :
  (i < 4)%nat -> empirical_p balanced_data i < 1.
Proof.
  intros Hi. unfold empirical_p, ones_count, balanced_data, vget.
  destruct i as [|[|[|[|i]]]]; try lia; decide_weight_eqb; simpl; lra.
Qed.

Lemma saturated_data_p : 1 <= empirical_p saturated_data 0.
Proof.
  unfold empirical_p, ones_count, saturated_data, vget.
  decide_weight_eqb; simpl; lra.
Qed.

(** C5, amended.  For a non-empty training set in which every visible unit
    [i] has [p_i < 1], where [p_i] is the fraction of the examples whose
    component [i] equals 1 plus 0.0001, [init_weights] sets
    [c(i) = log(p_i / (1 - p_i))] for every visible unit and changes nothing
    else; a unit that is 1 in exactly half of the examples gets
    [log(0.5001 / 0.4999)].  When [p_i >= 1] for some unit, the assertion on
    the finiteness of [c(i)] fails. *)
Theorem init_weights_logit (L : Layer) (training_data : list vector)
    (r : rbm) (g : rand) :
  training_data <> [] ->
  Forall (fun items => List.length items = num_visible L) training_data ->
  List.length (c r) = num_visible L ->
  ((forall i, (i < num_visible L)%nat -> empirical_p training_data i < 1) ->
   exists r',
     init_weights L training_data r g = Ok (r', g) /\
     (forall i, (i < num_visible L)%nat ->
        vget (c r') i = ln (empirical_p training_data i
                            / (1 - empirical_p training_data i))) /\
     (forall i, (i < num_visible L)%nat ->
        (2 * ones_count training_data i = List.length training_data)%nat ->
        vget (c r') i = ln (0.5001 / 0.4999)) /\
     w r' = w r /\ b r' = b r /\
     mats r' = mats r /\
     (forall s, s <> slot_c -> vecs r' s = vecs r s) /\
     gr_w_ref r' = gr_w_ref r /\ gr_b_ref r' = gr_b_ref r /\
     learning_rate r' = learning_rate r) /\
  ((exists i, (i < num_visible L)%nat /\ 1 <= empirical_p training_data i) ->
   init_weights L training_data r g = Fault (Assertion "NaN verify")).
Proof.
  intros Hne _ Hc.
  destruct (init_weights_rounds L training_data r g (num_visible L) _
              Hne Hc (Nat.le_refl _) eq_refl) as (Hok & Hfail).
  split; [|exact Hfail].
  intros Hall. destruct (Hok Hall)
    as (r' & Hrun & Hlen & Hval & Hm & Hv & Hgw & Hgb & _ & _ & Hlr).
  exists r'. split; [exact Hrun|]. split; [exact Hval|].
  split; [|split; [|split; [|split; [exact Hm|split; [exact Hv|auto]]]]].
  - intros i Hi Hhalf. rewrite Hval by exact Hi. f_equal.
    assert (Hn : INR (List.length training_data) <> 0).
    { apply not_0_INR. destruct training_data; [congruence | simpl; lia]. }
    assert (Hp : empirical_p training_data i = 0.5001).
    { unfold empirical_p. rewrite <- Hhalf, mult_INR. simpl INR.
      rewrite <- Hhalf, mult_INR in Hn. simpl INR in Hn.
      field_simplify_eq; [lra | lra]. }
    rewrite Hp. f_equal. lra.
  - unfold w. now rewrite Hm.
  - unfold b. apply Hv. discriminate.
Qed.

Lemma init_weights_logit_witness :
  exists r',
    init_weights layer_4_2 balanced_data (zero_rbm layer_4_2) (constant_rand 0)
    = Ok (r', constant_rand 0) /\
    vget (c r') 0 = ln (0.5001 / 0.4999) /\
    w r' = w (zero_rbm layer_4_2) /\ b r' = b (zero_rbm layer_4_2).
Proof.
  destruct (init_weights_logit layer_4_2 balanced_data (zero_rbm layer_4_2)
              (constant_rand 0)) as (Hok & _).
  - discriminate.
  - repeat constructor.
  - reflexivity.
  - destruct (Hok balanced_data_p) as (r' & Hrun & _ & Hhalf & Hw & Hb & _).
    exists r'. split; [exact Hrun|]. split; [|split; assumption].
    apply Hhalf; [simpl; lia|].
    unfold ones_count, balanced_data, vget. decide_weight_eqb. reflexivity.
Defined.

(** C5 as stated fails on a training set in which a visible unit is 1 in
    every example: the assertion aborts [init_weights], and no instance with
    [c] set comes out of it. *)
Lemma init_weights_saturated_unit_fails :
  saturated_data <> [] /\
  Forall (fun items => List.length items = num_visible layer_4_2) saturated_data /\
  init_weights layer_4_2 saturated_data (zero_rbm layer_4_2) (constant_rand 0)
  = Fault (Assertion "NaN verify") /\
  ~ (exists r' g',
       init_weights layer_4_2 saturated_data (zero_rbm layer_4_2) (constant_rand 0)
       = Ok (r', g')).
Proof.
  assert (Hrun : init_weights layer_4_2 saturated_data (zero_rbm layer_4_2)
                   (constant_rand 0) = Fault (Assertion "NaN verify")).
  { destruct (init_weights_rounds layer_4_2 saturated_data (zero_rbm layer_4_2)
                (constant_rand 0) 4 _ ltac:(discriminate) eq_refl
                (Nat.le_refl _) eq_refl) as (_ & Hfail).
    apply Hfail. exists 0%nat. split; [lia | exact saturated_data_p]. }
  split; [discriminate|]. split; [repeat constructor|]. split; [exact Hrun|].
  intros (r' & g' & H). rewrite Hrun in H. discriminate.
Qed.

(** *** Reconstruction *)

Lemma reconstruct_steps (L : Layer) (items : vector) (r : rbm) :
  List.length items = num_visible L ->
  reconstruct L items r
  = ('(a1, s1) <- activate_hidden L r (h1_a r) (h1_s r) items items ;;
     '(a2, s2) <- activate_visible L r a1 s1 (v2_a r) (v2_s r) ;;
     '(a3, s3) <- activate_hidden L r (h2_a r) (h2_s r) a2 s2 ;;
     ret (set_vec slot_h2_s s3 (set_vec slot_h2_a a3
           (set_vec slot_v2_s s2 (set_vec slot_v2_a a2
             (set_vec slot_h1_s s1 (set_vec slot_h1_a a1
               (set_vec slot_v1 items r)))))))).
Proof.
  intros Hlen. unfold reconstruct, dll_assert.
  rewrite Hlen, Nat.eqb_refl. reflexivity.
Qed.

Lemma reconstruct_wrong_length (L : Layer) (items : vector) (r : rbm) (g : rand) :
  List.length items <> num_visible L ->
  reconstruct L items r g
  = Fault (Assertion "The size of the training sample must match visible units").
Proof.
  intros Hne. unfold reconstruct, dll_assert.
  destruct (Nat.eqb_spec (List.length items) (num_visible L)) as [He | _];
    [contradiction | reflexivity].
Qed.

Lemma reconstruct_ok_inv (L : Layer) (items : vector) (r : rbm) (g : rand)
    (r' : rbm) (g' : rand) :
  List.length items = num_visible L ->
  reconstruct L items r g = Ok (r', g') ->
  w r' = w r /\ b r' = b r /\ c r' = c r /\
  mats r' = mats r /\
  gr_w_ref r' = gr_w_ref r /\ gr_b_ref r' = gr_b_ref r /\
  v1 r' = items /\
  exists g1 g2,
    activate_hidden L r (h1_a r) (h1_s r) items items g
    = Ok ((h1_a r', h1_s r'), g1) /\
    activate_visible L r (h1_a r') (h1_s r') (v2_a r) (v2_s r) g1
    = Ok ((v2_a r', v2_s r'), g2) /\
    activate_hidden L r (h2_a r) (h2_s r) (v2_a r') (v2_s r') g2
    = Ok ((h2_a r', h2_s r'), g').
Proof.
  intros Hlen H. rewrite (reconstruct_steps L items r Hlen) in H.
  apply bind_ok in H. destruct H as ([a1 s1] & g1 & H1 & H).
  apply bind_ok in H. destruct H as ([a2 s2] & g2 & H2 & H).
  apply bind_ok in H. destruct H as ([a3 s3] & g3 & H3 & H).
  unfold ret in H. injection H as <- <-.
  repeat split. exists g1, g2. repeat split; assumption.
Qed.

(** *** The gradient references *)

Lemma exec_keeps_bindings (L : Layer) (o : op) (r : rbm) (g : rand)
    (r' : rbm) (g' : rand) :
  exec L o r g = Ok (r', g') ->
  gr_w_ref r' = gr_w_ref r /\ gr_b_ref r' = gr_b_ref r.
Proof.
  destruct o as [os | ins | training_data | | items | [Temp|] h_a h_s v_a v_s
                 | h_a h_s v_a v_s | s m | s v | m | v | x];
    simpl; intros H;
    try (unfold ret in H; injection H as <- <-; split; reflexivity);
    try (apply bind_ok in H; destruct H as (? & ? & _ & H);
         unfold ret in H; injection H as <- <-; split; reflexivity).
  - unfold ret in H. injection H as <- <-. unfold load.
    destruct (binary_load_all ins _) as [i1 dw].
    destruct (binary_load_all i1 _) as [i2 vb].
    destruct (binary_load_all i2 _) as [i3 vc]. split; reflexivity.
  - unfold init_weights, for_range_M in H.
    eapply (for_each_M_preserves
              (fun r1 => gr_w_ref r1 = gr_w_ref r /\ gr_b_ref r1 = gr_b_ref r));
      [| split; reflexivity | exact H].
    intros k s1 g1 s2 g2 Hb HP. cbv zeta in Hb.
    apply bind_ok in Hb. destruct Hb as (ci & g3 & _ & Hb).
    unfold ret in Hb. injection Hb as <- <-. exact HP.
  - destruct (Nat.eq_dec (List.length items) (num_visible L)) as [Hlen | Hne].
    + destruct (reconstruct_ok_inv L items r g r' g' Hlen H)
        as (_ & _ & _ & _ & Hgw & Hgb & _). now split.
    + rewrite (reconstruct_wrong_length L items r g Hne) in H. discriminate.
Qed.

Lemma reachable_bindings (L : Layer) (r : rbm) :
  reachable L r -> gr_w_ref r = slot_w /\ gr_b_ref r = slot_b.
Proof.
  induction 1 as [g r g' Hctor | o r g r' g' _ [IHw IHb] Hexec].
  - apply rbm_ctor_inv in Hctor. tauto.
  - apply exec_keeps_bindings in Hexec. destruct Hexec as [-> ->]. now split.
Qed.

(** C3.  In every instance a program can hold, [gr_w] is bound to [w] and
    [gr_b] to [b]: reading through the reference gives the parameter, a
    write through the reference is a write of the parameter, a write of the
    parameter is seen through the reference, and this is still so after any
    operation.  So, where [gr_activate_hidden] compiles,
    [gr_activate_hidden<false>] is [activate_hidden] on the live parameters
    and follows every write to them, while [gr_activate_hidden<true>]
    computes from [gr_b_tmp] and [gr_w_tmp] and does not see a write to the
    parameters; with BINARY hidden units the activations of the first are
    the logistic sigmoids of the total inputs under [b] and [w], those of
    the second the ones under [gr_b_tmp] and [gr_w_tmp].  Either call leaves
    the instance as it was. *)
Theorem gradient_references_alias_parameters (L : Layer) (r : rbm) :
  reachable L r ->
  gr_w_ref r = slot_w /\ gr_b_ref r = slot_b /\
  gr_w r = w r /\ gr_b r = b r /\
  (forall m, w (set_gr_w m r) = m /\ gr_w (set_mat slot_w m r) = m) /\
  (forall v, b (set_gr_b v r) = v /\ gr_b (set_vec slot_b v r) = v) /\
  (forall o g r' g', exec L o r g = Ok (r', g') ->
     gr_w r' = w r' /\ gr_b r' = b r') /\
  (gradient_types_agree L = true ->
   (forall h_a h_s v_a v_s,
      gr_activate_hidden L false r h_a h_s v_a v_s
      = activate_hidden L r h_a h_s v_a v_s) /\
   (forall h_a h_s v_a v_s,
      gr_activate_hidden L true r h_a h_s v_a v_s
      = activate_hidden_with L h_a h_s v_a v_s (gr_b_tmp r) (gr_w_tmp r)) /\
   (forall m v h_a h_s v_a v_s,
      gr_activate_hidden L false (set_gr_b v (set_gr_w m r)) h_a h_s v_a v_s
      = activate_hidden_with L h_a h_s v_a v_s v m) /\
   (forall m v h_a h_s v_a v_s,
      gr_activate_hidden L true (set_gr_b v (set_gr_w m r)) h_a h_s v_a v_s
      = gr_activate_hidden L true r h_a h_s v_a v_s) /\
   (hidden_unit L = BINARY ->
    forall h_a h_s v_a v_s g,
      List.length h_a = num_hidden L ->
      List.length h_s = num_hidden L ->
      exists a s g1 a' s' g1',
        gr_activate_hidden L false r h_a h_s v_a v_s g = Ok ((a, s), g1) /\
        gr_activate_hidden L true r h_a h_s v_a v_s g = Ok ((a', s'), g1') /\
        forall j, (j < num_hidden L)%nat ->
          vget a j = logistic_sigmoid (total_input L (b r) (w r) v_a j) /\
          vget a' j
          = logistic_sigmoid
              (total_input L (gr_b_tmp r) (gr_w_tmp r) v_a j))) /\
  (forall Temp h_a h_s v_a v_s g r' g',
     exec L (Op_activate_hidden (Some Temp) h_a h_s v_a v_s) r g = Ok (r', g') ->
     r' = r /\ w r' = w r /\ b r' = b r).
Proof.
  intros Hr. destruct (reachable_bindings L r Hr) as [Hw Hb].
  assert (Hgw : gr_w r = w r) by (unfold gr_w, w; now rewrite Hw).
  assert (Hgb : gr_b r = b r) by (unfold gr_b, b; now rewrite Hb).
  split; [exact Hw|]. split; [exact Hb|]. split; [exact Hgw|]. split; [exact Hgb|].
  split; [|split; [|split; [|split]]].
  - intros m. unfold set_gr_w, gr_w, w. rewrite Hw. simpl. rewrite Hw. simpl.
    now split.
  - intros v. unfold set_gr_b, gr_b, b. rewrite Hb. simpl. rewrite Hb. simpl.
    now split.
  - intros o g r' g' Hexec.
    destruct (reachable_bindings L r' (reach_exec L o r g r' g' Hr Hexec))
      as [Hw' Hb'].
    unfold gr_w, gr_b, w, b. now rewrite Hw', Hb'.
  - intros Hty. unfold gr_activate_hidden. rewrite Hty.
    split; [|split; [|split; [|split]]].
    + intros. unfold activate_hidden. now rewrite Hgw, Hgb.
    + intros. reflexivity.
    + intros. unfold set_gr_w, set_gr_b, set_mat, set_vec, gr_w, gr_b. simpl.
      rewrite ?Hw, ?Hb. simpl. reflexivity.
    + intros. unfold set_gr_w, set_gr_b, set_mat, set_vec, gr_w_tmp, gr_b_tmp.
      simpl. rewrite ?Hw, ?Hb. simpl. reflexivity.
    + intros Hhu h_a h_s v_a v_s g Ha Hs. rewrite Hgw, Hgb.
      destruct (binary_activate_hidden_with L v_a (b r) (w r) h_a h_s v_s g
                  Hhu Ha Hs) as (a & s & g1 & Hrun & _ & Hact).
      destruct (binary_activate_hidden_with L v_a (gr_b_tmp r) (gr_w_tmp r)
                  h_a h_s v_s g Hhu Ha Hs)
        as (a' & s' & g1' & Hrun' & _ & Hact').
      exists a, s, g1, a', s', g1'.
      split; [exact Hrun|]. split; [exact Hrun'|].
      intros j Hj. split; [now apply Hact | now apply Hact'].
  - intros Temp h_a h_s v_a v_s g r' g' H. simpl in H.
    apply bind_ok in H. destruct H as (? & ? & _ & H).
    unfold ret in H. injection H as <- <-. auto.
Qed.

Lemma gradient_references_alias_parameters_witness :
  exists r,
    reachable layer_dbn r /\
    w r = live_weights /\ gr_w r = live_weights /\
    gr_w_tmp r = trial_weights /\
    exists a s g1 a' s' g1',
      activate_hidden layer_dbn r [0; 0] [0; 0] [1; 0; 0; 0] [1; 0; 0; 0]
                      (constant_rand 0.5) = Ok ((a, s), g1) /\
      gr_activate_hidden layer_dbn false r [0; 0] [0; 0] [1; 0; 0; 0]
                         [1; 0; 0; 0] (constant_rand 0.5) = Ok ((a, s), g1) /\
      gr_activate_hidden layer_dbn true r [0; 0] [0; 0] [1; 0; 0; 0]
                         [1; 0; 0; 0] (constant_rand 0.5) = Ok ((a', s'), g1') /\
      vget a 0 = logistic_sigmoid 1 /\
      vget a' 0 = logistic_sigmoid (-1) /\
      vget a 0 <> vget a' 0.
Proof.
  destruct (rbm_ctor_succeeds layer_dbn (constant_rand 0) eq_refl)
    as (r0 & g0 & Hctor).
  pose proof (reach_ctor layer_dbn (constant_rand 0) r0 g0 Hctor) as Hr0.
  pose proof (rbm_ctor_inv layer_dbn (constant_rand 0) r0 g0 Hctor)
    as (_ & _ & Hb0 & _ & Hw0 & _).
  set (r1 := set_gr_w live_weights r0).
  set (r := set_mat slot_gr_w_tmp trial_weights r1).
  assert (Hr1 : reachable layer_dbn r1).
  { exact (reach_exec layer_dbn (Op_assign_gr_w live_weights) r0
             (constant_rand 0) r1 (constant_rand 0) Hr0 eq_refl). }
  assert (Hr : reachable layer_dbn r).
  { exact (reach_exec layer_dbn (Op_assign_mat slot_gr_w_tmp trial_weights) r1
             (constant_rand 0) r (constant_rand 0) Hr1 eq_refl). }
  destruct (gradient_references_alias_parameters layer_dbn r0 Hr0)
    as (_ & _ & _ & _ & Hwrite & _).
  destruct (gradient_references_alias_parameters layer_dbn r Hr)
    as (_ & _ & Hgw & _ & _ & _ & _ & Hcalls & _).
  destruct (Hcalls eq_refl) as (Hfalse & _ & _ & _ & Hbin).
  assert (Hw : w r = live_weights) by exact (proj1 (Hwrite live_weights)).
  assert (Hb : b r = zero_vector 2).
  { exact Hb0. }
  assert (Htmp : gr_w_tmp r = trial_weights) by reflexivity.
  assert (Hbtmp : gr_b_tmp r = zero_vector 2).
  { exact (rbm_ctor_members_tmp layer_dbn (constant_rand 0) r0 g0 Hctor). }
  destruct (Hbin eq_refl [0; 0] [0; 0] [1; 0; 0; 0] [1; 0; 0; 0]
              (constant_rand 0.5) eq_refl eq_refl)
    as (a & s & g1 & a' & s' & g1' & Hrun & Hrun' & Hact).
  destruct (Hact 0%nat ltac:(simpl; lia)) as (Ha0 & Ha0').
  rewrite Hw, Hb in Ha0. rewrite Htmp, Hbtmp in Ha0'.
  replace (total_input layer_dbn (zero_vector 2) live_weights [1; 0; 0; 0] 0)
    with 1 in Ha0
    by (unfold total_input, mget, vget, live_weights; simpl; lra).
  replace (total_input layer_dbn (zero_vector 2) trial_weights [1; 0; 0; 0] 0)
    with (-1) in Ha0'
    by (unfold total_input, mget, vget, trial_weights; simpl; lra).
  exists r. split; [exact Hr|]. split; [exact Hw|].
  split; [rewrite Hgw; exact Hw|]. split; [exact Htmp|].
  exists a, s, g1, a', s', g1'.
  split; [rewrite <- Hfalse; exact Hrun|]. split; [exact Hrun|].
  split; [exact Hrun'|]. split; [exact Ha0|]. split; [exact Ha0'|].
  rewrite Ha0, Ha0'. unfold logistic_sigmoid.
  replace (- -1) with 1 by lra.
  pose proof (exp_pos 1) as H1. pose proof (exp_pos (-1)) as H2.
  assert (Hlt : exp (-1) < exp 1) by (apply exp_increasing; lra).
  assert (Hs : 1 / (1 + exp 1) < 1 / (1 + exp (-1))).
  { unfold Rdiv. rewrite !Rmult_1_l. apply Rinv_lt_contravar; [nra | lra]. }
  replace (exp (- (1))) with (exp (-1)) by (f_equal; lra).
  lra.
Defined.

(** ** Further properties of the code *)

(** *** Construction *)

Lemma init_elements_draws (ws : list weight) (g : rand) :
  init_elements ws g
  = Ok (map (fun k => draws (ctor_generator g) (pos (ctor_generator g) + k) * 0.1)
            (seq 0 (List.length ws)),
        mk_rand (mk_generator (draws (ctor_generator g))
                              (pos (ctor_generator g) + List.length ws))
                (hidden_uniform g) (hidden_normal g)
                (visible_uniform g) (visible_normal g)).
Proof.
  revert g. induction ws as [|h t IH]; intros g.
  - simpl. unfold ret. rewrite Nat.add_0_r.
    now destruct g as [[? ?] ? ? ? ?].
  - simpl init_elements. unfold bind, draw_ctor, next. cbv beta iota zeta.
    rewrite IH. unfold ret. simpl.
    rewrite Nat.add_0_r. do 2 f_equal.
    + f_equal. rewrite <- seq_shift, map_map. apply map_ext.
      intros k. do 2 f_equal. lia.
    + do 2 f_equal. lia.
Qed.

Lemma nth_map_seq (f : nat -> weight) (n k : nat) :
  (k < n)%nat -> nth k (map f (seq 0 n)) 0 = f k.
Proof.
  intros Hk. rewrite (nth_indep _ 0 (f 0%nat)) by now rewrite length_map, length_seq.
  rewrite map_nth, seq_nth by exact Hk. reflexivity.
Qed.

Lemma cell_index_in_range (nv nh i j : nat) :
  (i < nv)%nat -> (j < nh)%nat -> (i * nh + j < nv * nh)%nat.
Proof.
  intros Hi Hj. apply Nat.lt_le_trans with (S i * nh)%nat; [simpl; lia|].
  apply Nat.mul_le_mono_r. lia.
Qed.

(** X1.  The constructor succeeds exactly for the configurations whose
    visible units are neither SOFTMAX nor EXP and whose hidden units are not
    GAUSSIAN; for the others it stops at the [static_assert] that names the
    unsupported unit. *)
Theorem rbm_ctor_supported_configurations (L : Layer) (g : rand) :
  ((exists r g', rbm_ctor L g = Ok (r, g')) <->
   (visible_unit L <> SOFTMAX /\ visible_unit L <> EXP /\
    hidden_unit L <> GAUSSIAN)) /\
  (visible_unit L = SOFTMAX \/ visible_unit L = EXP ->
   rbm_ctor L g = Fault (StaticAssert
     "Exponential and softmax Visible units are not support")) /\
  (visible_unit L <> SOFTMAX -> visible_unit L <> EXP ->
   hidden_unit L = GAUSSIAN ->
   rbm_ctor L g = Fault (StaticAssert "Gaussian hidden units are not supported")).
Proof.
  split; [split|split].
  - intros (r & g' & H). eapply ctor_accepts_supported_units; eauto.
  - intros (Hs & He & Hg). apply rbm_ctor_succeeds.
    unfold static_asserts.
    destruct (visible_unit L), (hidden_unit L); simpl;
      first [reflexivity | congruence].
  - intros H. unfold rbm_ctor, static_asserts, bind.
    destruct H as [H | H]; rewrite H; reflexivity.
  - intros Hs He Hg. unfold rbm_ctor, static_asserts, bind. rewrite Hg.
    destruct (visible_unit L); simpl; first [reflexivity | congruence].
Qed.

(** X2.  A constructed instance has the shape of its configuration; [b] and
    [c] are zero; element [(i, j)] of [w] is one tenth of the variate number
    [i * num_hidden + j] the constructor's generator delivers; the
    constructor draws [num_visible * num_hidden] variates from that generator
    and none from the others. *)
Theorem rbm_ctor_initial_state (L : Layer) (g : rand) (r : rbm) (g' : rand) :
  rbm_ctor L g = Ok (r, g') ->
  shaped L r /\
  b r = zero_vector (num_hidden L) /\
  c r = zero_vector (num_visible L) /\
  (forall i j, (i < num_visible L)%nat -> (j < num_hidden L)%nat ->
     mget (w r) i j
     = draws (ctor_generator g)
             (pos (ctor_generator g) + (i * num_hidden L + j)) * 0.1) /\
  pos (ctor_generator g')
    = (pos (ctor_generator g) + num_visible L * num_hidden L)%nat /\
  draws (ctor_generator g') = draws (ctor_generator g) /\
  hidden_uniform g' = hidden_uniform g /\
  hidden_normal g' = hidden_normal g /\
  visible_uniform g' = visible_uniform g /\
  visible_normal g' = visible_normal g.
Proof.
  intros H. pose proof (rbm_ctor_shaped L g r g' H) as Hshape.
  pose proof (rbm_ctor_inv L g r g' H) as (_ & _ & Hb & Hc & _).
  split; [exact Hshape|]. split; [exact Hb|]. split; [exact Hc|].
  unfold rbm_ctor in H.
  apply bind_ok in H. destruct H as ([] & g1 & Hs & H).
  assert (g1 = g) as ->.
  { unfold static_asserts in Hs.
    repeat match type of Hs with
           | (if ?t then _ else _) _ = _ => destruct t
           end; unfold ret, fail in Hs; congruence. }
  apply bind_ok in H. destruct H as (ws & g2 & Hws & H).
  rewrite init_elements_draws in Hws. injection Hws as <- <-.
  unfold ret in H. injection H as <- <-.
  simpl. split; [|rewrite repeat_length; repeat split].
  intros i j Hi Hj. unfold mget, w. simpl. rewrite repeat_length.
  apply nth_map_seq. now apply cell_index_in_range.
Qed.

Lemma rbm_ctor_initial_state_witness :
  exists r g',
    rbm_ctor layer_4_2 (constant_rand 3) = Ok (r, g') /\
    mget (w r) 3 1 = 3 * 0.1 /\
    pos (ctor_generator g') = 8%nat.
Proof.
  pose proof (rbm_ctor_initial_state layer_4_2 (constant_rand 3)) as T.
  unfold rbm_ctor, static_asserts, bind, ret in T. simpl in T.
  eexists. eexists. split.
  - unfold rbm_ctor, static_asserts, bind, ret. simpl. reflexivity.
  - destruct (T _ _ eq_refl) as (_ & _ & _ & Hw & Hpos & _).
    split; [apply Hw; lia | exact Hpos].
Defined.

(** *** Free energy *)






(** *** Warm start of the visible biases *)

Section LoopBodies.

Context {S : Type}.

Lemma for_each_M_ext (ks : list nat) (body1 body2 : nat -> S -> M S)
    (s : S) (g : rand) :
  (forall k s1 g1, In k ks -> body1 k s1 g1 = body2 k s1 g1) ->
  for_each_M ks body1 s g = for_each_M ks body2 s g.
Proof.
  revert s g. induction ks as [|k ks IH]; intros s g H; simpl; [reflexivity|].
  unfold bind. rewrite H by now left.
  destruct (body2 k s g) as [[s1 g1] | f]; [|reflexivity].
  apply IH. intros; apply H; now right.
Qed.

End LoopBodies.

Lemma init_weights_round (training_data : list vector) (i : nat) (r : rbm)
    (g : rand) :
  (let count := fold_left (fun count items =>
                   if weight_eqb (vget items i) 1 then S count else count)
                 training_data 0%nat in
   let pi := xdiv (Some (INR count)) (Some (INR (List.length training_data))) in
   let pi := xplus pi (Some 0.0001) in
   ci <- assert_finite (xlog (xdiv pi (xminus (Some 1) pi))) "NaN verify" ;;
   ret (set_vec slot_c (vset (c r) i ci) r)) g
  = (let pi := xplus (xdiv (Some (INR (ones_count training_data i)))
                           (Some (INR (List.length training_data))))
                     (Some 0.0001) in
     ci <- assert_finite (xlog (xdiv pi (xminus (Some 1) pi))) "NaN verify" ;;
     ret (set_vec slot_c (vset (c r) i ci) r)) g.
Proof. cbv zeta. now rewrite count_loop_ones_count. Qed.

Lemma ones_count_permutation (d1 d2 : list vector) (i : nat) :
  Permutation d1 d2 -> ones_count d1 i = ones_count d2 i.
Proof.
  unfold ones_count. induction 1 as [| x l l' _ IH | x y l | l l' l'' _ IH1 _ IH2];
    simpl; try reflexivity.
  - destruct (weight_eqb (vget x i) 1); simpl; now rewrite IH.
  - destruct (weight_eqb (vget x i) 1), (weight_eqb (vget y i) 1); reflexivity.
  - now rewrite IH1.
Qed.

(** X4.  On an empty training set [init_weights] fails its assertion as soon
    as there is a visible unit: the probability is 0/0.  Without visible
    units the loop does not run and the instance comes back as it was,
    whatever the training set. *)
Theorem init_weights_empty_training_set (L : Layer) (r : rbm) (g : rand) :
  ((0 < num_visible L)%nat ->
   init_weights L [] r g = Fault (Assertion "NaN verify")) /\
  (num_visible L = 0%nat ->
   forall training_data, init_weights L training_data r g = Ok (r, g)).
Proof.
  split.
  - intros Hn. unfold init_weights, for_range_M.
    destruct (num_visible L) as [|n]; [lia|].
    simpl. unfold bind at 1. unfold bind at 1. unfold xdiv. simpl.
    destruct (Req_dec_T 0 0) as [_ | Hne]; [reflexivity | contradiction].
  - intros Hn training_data. unfold init_weights, for_range_M.
    rewrite Hn. reflexivity.
Qed.

(** X5.  [init_weights] does not depend on the order of the training
    examples: on two training sets that are permutations of each other it
    gives the same result, or fails alike. *)
Theorem init_weights_order_independent (L : Layer) (d1 d2 : list vector)
    (r : rbm) (g : rand) :
  Permutation d1 d2 ->
  init_weights L d1 r g = init_weights L d2 r g.
Proof.
  intros Hperm. unfold init_weights, for_range_M.
  apply for_each_M_ext. intros k s1 g1 _.
  rewrite !init_weights_round.
  rewrite (ones_count_permutation d1 d2 k Hperm).
  now rewrite (Permutation_length Hperm).
Qed.

Lemma init_weights_order_independent_witness :
  init_weights layer_4_2 [[1; 0; 1; 0]; [0; 1; 0; 0]] (zero_rbm layer_4_2)
               (constant_rand 0)
  = init_weights layer_4_2 [[0; 1; 0; 0]; [1; 0; 1; 0]] (zero_rbm layer_4_2)
                 (constant_rand 0).
Proof.
  apply (init_weights_order_independent layer_4_2
           [[1; 0; 1; 0]; [0; 1; 0; 0]] [[0; 1; 0; 0]; [1; 0; 1; 0]]).
  apply perm_swap.
Defined.

Lemma init_weights_ok_inv (L : Layer) (training_data : list vector) (r : rbm)
    (g : rand) (r' : rbm) (g' : rand) :
  List.length (c r) = num_visible L ->
  init_weights L training_data r g = Ok (r', g') ->
  g' = g /\
  ((num_visible L = 0%nat /\ r' = r) \/
   (training_data <> [] /\
    (forall i, (i < num_visible L)%nat -> empirical_p training_data i < 1) /\
    warm_started L training_data r (num_visible L) r')).
Proof.
  intros Hc H.
  destruct (Nat.eq_dec (num_visible L) 0) as [Hz | Hnz].
  - unfold init_weights, for_range_M in H. rewrite Hz in H.
    unfold for_each_M, ret in H. simpl in H. injection H as <- <-. auto.
  - assert (Hne : training_data <> []).
    { intros ->. unfold init_weights, for_range_M in H.
      destruct (num_visible L) as [|n]; [lia|].
      simpl in H. unfold bind at 1 in H. unfold bind at 1 in H.
      unfold xdiv in H. simpl in H.
      destruct (Req_dec_T 0 0) as [_ | Hne]; [discriminate | contradiction]. }
    destruct (init_weights_rounds L training_data r g (num_visible L) _
                Hne Hc (Nat.le_refl _) eq_refl) as (Hok & Hfail).
    unfold init_weights in H.
    destruct (bounded_all_or_exists (empirical_p training_data) (num_visible L))
      as [Hall | Hex].
    + destruct (Hok Hall) as (r1 & Hrun & Hws).
      pose proof (eq_trans (eq_sym Hrun) H) as E.
      injection E as <- <-. split; [reflexivity|].
      right. auto.
    + pose proof (eq_trans (eq_sym (Hfail Hex)) H) as E. discriminate E.
Qed.

(** X6.  What [init_weights] leaves in [c] is a function of the training set
    alone: whatever [c] held before and whatever the state of the
    generators, a run that succeeds leaves the same [c], and a run on one
    instance succeeds when a run on another did.  In particular running
    [init_weights] again on its own result changes nothing in [c], and no
    random number is drawn. *)
Theorem init_weights_overwrites_c (L : Layer) (training_data : list vector)
    (r1 r2 : rbm) (g1 g2 : rand) (r1' : rbm) (g1' : rand) :
  List.length (c r1) = num_visible L ->
  List.length (c r2) = num_visible L ->
  init_weights L training_data r1 g1 = Ok (r1', g1') ->
  g1' = g1 /\
  (exists r2',
     init_weights L training_data r2 g2 = Ok (r2', g2) /\ c r2' = c r1') /\
  (exists r1'',
     init_weights L training_data r1' g1' = Ok (r1'', g1') /\ c r1'' = c r1').
Proof.
  intros Hc1 Hc2 H.
  destruct (init_weights_ok_inv L training_data r1 g1 r1' g1' Hc1 H)
    as (-> & [(Hz & ->) | (Hne & Hall & Hws)]).
  - split; [reflexivity|].
    assert (Hnil : forall r, List.length (c r) = num_visible L -> c r = []).
    { intros r Hr. rewrite Hz in Hr. now destruct (c r). }
    assert (Hrun : forall r g, init_weights L training_data r g = Ok (r, g)).
    { intros r g. unfold init_weights, for_range_M. now rewrite Hz. }
    split.
    + exists r2. split; [apply Hrun|]. now rewrite !Hnil.
    + exists r1. split; [apply Hrun | reflexivity].
  - split; [reflexivity|].
    assert (Hsame : forall r g, List.length (c r) = num_visible L ->
              exists r', init_weights L training_data r g = Ok (r', g)
                         /\ c r' = c r1').
    { intros r g Hr.
      destruct (init_weights_rounds L training_data r g (num_visible L) _
                  Hne Hr (Nat.le_refl _) eq_refl) as (Hok & _).
      unfold init_weights.
      destruct (Hok Hall) as (r' & Hrun & Hlen' & Hval' & _).
      exists r'. split; [exact Hrun|].
      destruct Hws as (Hlen1 & Hval1 & _).
      apply (nth_ext _ _ 0 0);
        [transitivity (num_visible L); [exact Hlen' | symmetry; exact Hlen1]|].
      intros n Hn.
      assert (Hn' : (n < num_visible L)%nat).
      { apply (Nat.lt_le_trans _ _ _ Hn), Nat.eq_le_incl. exact Hlen'. }
      change (vget (c r') n = vget (c r1') n).
      now rewrite Hval', Hval1. }
    split; [apply Hsame; exact Hc2|].
    apply Hsame. apply Hws.
Qed.

Lemma init_weights_overwrites_c_witness :
  exists r1',
    init_weights layer_4_2 balanced_data (zero_rbm layer_4_2) (constant_rand 0)
    = Ok (r1', constant_rand 0) /\
    exists r2',
      init_weights layer_4_2 balanced_data
                   (set_vec slot_c [1; 2; 3; 4] (zero_rbm layer_4_2))
                   (constant_rand 1)
      = Ok (r2', constant_rand 1) /\ c r2' = c r1'.
Proof.
  destruct (init_weights_rounds layer_4_2 balanced_data (zero_rbm layer_4_2)
              (constant_rand 0) 4 _ ltac:(discriminate) eq_refl
              (Nat.le_refl _) eq_refl) as (Hok & _).
  destruct (Hok balanced_data_p) as (r1' & Hrun & _).
  exists r1'. split; [exact Hrun|].
  exact (proj1 (proj2 (init_weights_overwrites_c layer_4_2 balanced_data
                         (zero_rbm layer_4_2)
                         (set_vec slot_c [1; 2; 3; 4] (zero_rbm layer_4_2))
                         (constant_rand 0) (constant_rand 1) r1' (constant_rand 0)
                         eq_refl eq_refl Hrun))).
Defined.

(** *** Sampling of the hidden units *)

Lemma logistic_sigmoid_range (x : R) : 0 < logistic_sigmoid x < 1.
Proof.
  unfold logistic_sigmoid. pose proof (exp_pos (- x)) as He.
  assert (Hd : 0 < 1 + exp (- x)) by lra.
  split.
  - apply Rdiv_lt_0_compat; lra.
  - apply (Rmult_lt_reg_r (1 + exp (- x))); [exact Hd|].
    unfold Rdiv. rewrite Rmult_assoc, Rinv_l by lra. lra.
Qed.

Lemma std_max_0_nonneg (x : R) : 0 <= std_max 0 x.
Proof. unfold std_max. destruct (Rlt_dec 0 x); lra. Qed.

Section HiddenSampling.

Variable L : Layer.
Variables v_a bv : vector.
Variable wm : matrix.



(** The loop of the RELU units. *)
Lemma relu_loop (h_a h_s : vector) (g : rand) :
  List.length h_a = num_hidden L ->
  List.length h_s = num_hidden L ->
  let x := total_input L bv wm v_a in
  let z := fun j => draws (hidden_normal g) (pos (hidden_normal g) + j) in
  exists a s,
    for_range_M 0 (num_hidden L) (fun j '(h_a, h_s) =>
      let s := hidden_sum L wm v_a j in
      let x := vget bv j + s in
      n <- draw_hidden_noise (logistic_sigmoid x) ;;
      ret (vset h_a j (std_max 0 x), vset h_s j (std_max 0 (x + n))))
      (h_a, h_s) g
    = Ok ((a, s),
          mk_rand (ctor_generator g) (hidden_uniform g)
                  (mk_generator (draws (hidden_normal g))
                     (pos (hidden_normal g) + num_hidden L))
                  (visible_uniform g) (visible_normal g)) /\
    List.length a = num_hidden L /\
    List.length s = num_hidden L /\
    forall j, (j < num_hidden L)%nat ->
      vget a j = std_max 0 (x j) /\
      vget s j = std_max 0 (x j + logistic_sigmoid (x j) * z j).
Proof.
  intros Ha Hs x z.
  pose (P := fun (k : nat) (st : vector * vector) (g1 : rand) =>
    List.length (fst st) = num_hidden L /\
    List.length (snd st) = num_hidden L /\
    g1 = mk_rand (ctor_generator g) (hidden_uniform g)
           (mk_generator (draws (hidden_normal g)) (pos (hidden_normal g) + k))
           (visible_uniform g) (visible_normal g) /\
    forall j, (j < k)%nat ->
      vget (fst st) j = std_max 0 (x j) /\
      vget (snd st) j = std_max 0 (x j + logistic_sigmoid (x j) * z j)).
  match goal with |- context [for_range_M 0 _ ?body ?s0 g] =>
    destruct (for_range_M_invariant P 0 (num_hidden L) body s0 g)
      as ([a s] & g' & Hrun & Hla & Hls & -> & HQ)
  end.
  - lia.
  - unfold P. simpl. rewrite Nat.add_0_r.
    split; [exact Ha | split; [exact Hs | split]].
    + now destruct g as [? ? [? ?] ? ?].
    + intros; lia.
  - intros k [a s] g1 Hk (Hla & Hls & -> & HQ). simpl in Hla, Hls, HQ.
    assert (Hx : vget bv k + hidden_sum L wm v_a k = x k).
    { unfold x, total_input. now rewrite hidden_sum_big_sum. }
    cbv zeta. rewrite Hx.
    unfold bind, draw_hidden_noise, next, ret. simpl.
    eexists. eexists. split; [reflexivity|].
    unfold P. simpl fst. simpl snd. rewrite !length_vset.
    split; [exact Hla | split; [exact Hls | split]].
    + do 2 f_equal. f_equal. lia.
    + intros j Hj. destruct (Nat.eq_dec j k) as [-> | Hne].
      * rewrite !vget_vset_same by lia. split; reflexivity.
      * rewrite !vget_vset_other by congruence. apply HQ. lia.
  - exists a, s. simpl in Hla, Hls, HQ.
    split; [exact Hrun | split; [exact Hla | split; [exact Hls | exact HQ]]].
Qed.

End HiddenSampling.



(** X8.  With RELU hidden units the activation of hidden unit [j] with total
    input [x] is [max(0, x)] and its sample is [max(0, x + noise)], the noise
    being the logistic sigmoid of [x] times the [j]-th standard normal
    variate drawn in the call; neither is ever negative, and the activation
    is [x] itself when [x] is not negative.  The call draws one normal
    variate per hidden unit and nothing from the other generators. *)
Theorem relu_hidden_sampling (L : Layer) (r : rbm)
    (h_a h_s v_a v_s : vector) (g : rand) :
  hidden_unit L = RELU ->
  List.length h_a = num_hidden L ->
  List.length h_s = num_hidden L ->
  let x := total_input L (b r) (w r) v_a in
  let z := fun j => draws (hidden_normal g) (pos (hidden_normal g) + j) in
  exists a s g',
    activate_hidden L r h_a h_s v_a v_s g = Ok ((a, s), g') /\
    (forall j, (j < num_hidden L)%nat ->
       vget a j = Rmax 0 (x j) /\
       vget s j = Rmax 0 (x j + logistic_sigmoid (x j) * z j) /\
       0 <= vget a j /\ 0 <= vget s j /\
       (0 <= x j -> vget a j = x j)) /\
    pos (hidden_normal g') = (pos (hidden_normal g) + num_hidden L)%nat /\
    draws (hidden_normal g') = draws (hidden_normal g) /\
    ctor_generator g' = ctor_generator g /\
    hidden_uniform g' = hidden_uniform g /\
    visible_uniform g' = visible_uniform g /\
    visible_normal g' = visible_normal g.
Proof.
  intros Hhu Ha Hs x z.
  unfold activate_hidden, activate_hidden_with. rewrite Hhu. simpl.
  destruct (relu_loop L v_a (b r) (w r) (vfill h_a 0) (vfill h_s 0) g)
    as (a & s & Hrun & _ & _ & HQ);
    [now rewrite length_vfill | now rewrite length_vfill |].
  exists a, s. eexists. split; [exact Hrun|].
  split; [|simpl; repeat split].
  intros j Hj. destruct (HQ j Hj) as (Haj & Hsj).
  fold x in Haj, Hsj. fold (z j) in Hsj. rewrite Haj, Hsj.
  assert (Hmax : forall y, std_max 0 y = Rmax 0 y).
  { intros y. unfold std_max, Rmax.
    destruct (Rlt_dec 0 y), (Rle_dec 0 y); lra. }
  rewrite !Hmax.
  split; [reflexivity|]. split; [reflexivity|].
  split; [apply Rmax_l|]. split; [apply Rmax_l|].
  intros Hx. now apply Rmax_right.
Qed.

Lemma relu_hidden_sampling_witness :
  exists a s g',
    activate_hidden layer_4_2_relu (zero_rbm layer_4_2_relu)
                    [0; 0] [0; 0] [1; 0; 1; 0] [1; 0; 1; 0] (constant_rand 2)
    = Ok ((a, s), g') /\
    vget a 0 = 0 /\ 0 <= vget s 0 /\ pos (hidden_normal g') = 2%nat.
Proof.
  destruct (relu_hidden_sampling layer_4_2_relu (zero_rbm layer_4_2_relu)
              [0; 0] [0; 0] [1; 0; 1; 0] [1; 0; 1; 0] (constant_rand 2)
              eq_refl eq_refl eq_refl)
    as (a & s & g' & Hrun & HQ & Hpos & _).
  destruct (HQ 0%nat ltac:(simpl; lia)) as (_ & _ & _ & Hs0 & Hax).
  exists a, s, g'. split; [exact Hrun|].
  split; [|split; [exact Hs0 | exact Hpos]].
  rewrite Hax; unfold total_input, mget, vget; simpl; lra.
Defined.

(** *** What the hidden activation needs and what it ignores *)






Lemma vfill_same_length (v v' : vector) (x : weight) :
  List.length v = List.length v' -> vfill v x = vfill v' x.
Proof. intros H. now rewrite !vfill_repeat, H. Qed.

(** X10.  The activation functions overwrite their output buffers: the
    result depends on what the buffers held before only through their
    sizes.  [activate_hidden] does not read the visible sample it is given,
    and [activate_visible] does not read the hidden activation it is given. *)
Theorem activation_outputs_overwritten (L : Layer) (r : rbm) :
  (forall h_a h_s h_a' h_s' v_a v_s v_s' bv wm,
     List.length h_a = List.length h_a' ->
     List.length h_s = List.length h_s' ->
     activate_hidden_with L h_a h_s v_a v_s bv wm
     = activate_hidden_with L h_a' h_s' v_a v_s' bv wm) /\
  (forall h_a h_a' h_s v_a v_s v_a' v_s',
     List.length v_a = List.length v_a' ->
     List.length v_s = List.length v_s' ->
     activate_visible L r h_a h_s v_a v_s
     = activate_visible L r h_a' h_s v_a' v_s').
Proof.
  split.
  - intros h_a h_s h_a' h_s' v_a v_s v_s' bv wm Ha Hs.
    unfold activate_hidden_with.
    rewrite (vfill_same_length h_a h_a' 0 Ha).
    rewrite (vfill_same_length h_s h_s' 0 Hs). reflexivity.
  - intros h_a h_a' h_s v_a v_s v_a' v_s' Ha Hs.
    unfold activate_visible.
    rewrite (vfill_same_length v_a v_a' 0 Ha).
    rewrite (vfill_same_length v_s v_s' 0 Hs). reflexivity.
Qed.

(** *** Reconstruction of the visible units *)

(** A loop that writes one element of each of two buffers per round. *)
Lemma write_loop (n : nat) (body : nat -> vector * vector -> M (vector * vector))
    (A Sm : nat -> weight) (G : nat -> rand) (a0 s0 : vector) :
  List.length a0 = n ->
  List.length s0 = n ->
  (forall k a s, (k < n)%nat ->
     body k (a, s) (G k) = Ok ((vset a k (A k), vset s k (Sm k)), G (S k))) ->
  exists a s,
    for_range_M 0 n body (a0, s0) (G 0%nat) = Ok ((a, s), G n) /\
    List.length a = n /\ List.length s = n /\
    forall k, (k < n)%nat -> vget a k = A k /\ vget s k = Sm k.
Proof.
  intros Ha Hs Hbody.
  pose (P := fun (k : nat) (st : vector * vector) (g1 : rand) =>
    List.length (fst st) = n /\ List.length (snd st) = n /\ g1 = G k /\
    forall j, (j < k)%nat -> vget (fst st) j = A j /\ vget (snd st) j = Sm j).
  destruct (for_range_M_invariant P 0 n body (a0, s0) (G 0%nat))
    as ([a s] & g' & Hrun & Hla & Hls & -> & HQ).
  - lia.
  - unfold P. simpl. repeat split; auto; lia.
  - intros k [a s] g1 Hk (Hla & Hls & -> & HQ). simpl in Hla, Hls, HQ.
    rewrite Hbody by lia. eexists. eexists. split; [reflexivity|].
    unfold P. simpl fst. simpl snd. rewrite !length_vset.
    split; [exact Hla | split; [exact Hls | split; [reflexivity|]]].
    intros j Hj. destruct (Nat.eq_dec j k) as [-> | Hne].
    + rewrite !vget_vset_same by lia. split; reflexivity.
    + rewrite !vget_vset_other by congruence. apply HQ. lia.
  - exists a, s. simpl in Hla, Hls, HQ. auto.
Qed.

Lemma visible_sum_big_sum (L : Layer) (r : rbm) (h_s : vector) (i : nat) :
  vget (c r) i
  + for_range 0 (num_hidden L) (fun j s => s + mget (w r) i j * vget h_s j) 0
  = visible_input L r h_s i.
Proof. unfold visible_input. rewrite for_range_accumulate. lra. Qed.

(** The generators after [k] variates of the visible uniform generator, and
    after [k] variates of the visible normal generator. *)
Lemma visible_uniform_start (g : rand) :
  mk_rand (ctor_generator g) (hidden_uniform g) (hidden_normal g)
          (mk_generator (draws (visible_uniform g)) (pos (visible_uniform g) + 0))
          (visible_normal g) = g.
Proof. rewrite Nat.add_0_r. now destruct g as [? ? ? [? ?] ?]. Qed.

Lemma visible_normal_start (g : rand) :
  mk_rand (ctor_generator g) (hidden_uniform g) (hidden_normal g)
          (visible_uniform g)
          (mk_generator (draws (visible_normal g)) (pos (visible_normal g) + 0))
  = g.
Proof. rewrite Nat.add_0_r. now destruct g as [? ? ? ? [? ?]]. Qed.

(** X12.  With BINARY visible units [activate_visible] sets the activation
    of visible unit [i] to the logistic sigmoid of
    [c(i) + sum_j w(i, j) * h_s(j)], computed from the hidden sample and the
    live [c] and [w]; the activation is not below 0 and not above 1.  The
    sample is 1 when the activation is greater than the [i]-th uniform
    variate drawn in the call and 0 otherwise.  The call draws one variate
    per visible unit from its own uniform generator and nothing from the
    generators of [activate_hidden]. *)
Theorem binary_visible_sampling (L : Layer) (r : rbm)
    (h_a h_s v_a v_s : vector) (g : rand) :
  visible_unit L = BINARY ->
  List.length v_a = num_visible L ->
  List.length v_s = num_visible L ->
  let u := fun i => draws (visible_uniform g) (pos (visible_uniform g) + i) in
  exists a s g',
    activate_visible L r h_a h_s v_a v_s g = Ok ((a, s), g') /\
    (forall i, (i < num_visible L)%nat ->
       vget a i = logistic_sigmoid (visible_input L r h_s i) /\
       0 <= vget a i <= 1 /\
       (vget a i > u i -> vget s i = 1) /\
       (vget a i <= u i -> vget s i = 0)) /\
    pos (visible_uniform g') = (pos (visible_uniform g) + num_visible L)%nat /\
    draws (visible_uniform g') = draws (visible_uniform g) /\
    ctor_generator g' = ctor_generator g /\
    hidden_uniform g' = hidden_uniform g /\
    hidden_normal g' = hidden_normal g /\
    visible_normal g' = visible_normal g.
Proof.
  intros Hvu Ha Hs u. unfold activate_visible. rewrite Hvu.
  destruct (write_loop (num_visible L)
    (fun i '(v_a, v_s) =>
       let s := for_range 0 (num_hidden L)
                  (fun j s => s + mget (w r) i j * vget h_s j) 0 in
       let x := vget (c r) i + s in
       let a := logistic_sigmoid x in
       u <- draw_visible_uniform ;;
       ret (vset v_a i a, vset v_s i (if Rgt_dec a u then 1 else 0)))
    (fun i => logistic_sigmoid (visible_input L r h_s i))
    (fun i => if Rgt_dec (logistic_sigmoid (visible_input L r h_s i)) (u i)
              then 1 else 0)
    (fun k => mk_rand (ctor_generator g) (hidden_uniform g) (hidden_normal g)
                (mk_generator (draws (visible_uniform g))
                              (pos (visible_uniform g) + k))
                (visible_normal g))
    (vfill v_a 0) (vfill v_s 0))
    as (a & s & Hrun & _ & _ & HQ).
  - now rewrite length_vfill.
  - now rewrite length_vfill.
  - intros k a s Hk. cbv zeta. rewrite visible_sum_big_sum.
    unfold bind, draw_visible_uniform, next, ret, u. simpl.
    do 3 f_equal. f_equal. lia.
  - rewrite visible_uniform_start in Hrun.
    exists a, s. eexists. split; [exact Hrun|].
    split; [|simpl; repeat split].
    intros i Hi. destruct (HQ i Hi) as (Hai & Hsi). rewrite Hai, Hsi.
    pose proof (logistic_sigmoid_range (visible_input L r h_s i)) as Hr.
    split; [reflexivity|]. split; [destruct Hr; split; lra|].
    destruct (Rgt_dec _ (u i)); split; intros; lra.
Qed.

Lemma binary_visible_sampling_witness :
  exists a s g',
    activate_visible layer_4_2 (zero_rbm layer_4_2) [0; 0] [1; 0]
                     [9; 9; 9; 9] [9; 9; 9; 9] (constant_rand 0.25)
    = Ok ((a, s), g') /\
    vget a 3 = 0.5 /\ vget s 3 = 1 /\ pos (visible_uniform g') = 4%nat.
Proof.
  destruct (binary_visible_sampling layer_4_2 (zero_rbm layer_4_2) [0; 0] [1; 0]
              [9; 9; 9; 9] [9; 9; 9; 9] (constant_rand 0.25)
              eq_refl eq_refl eq_refl)
    as (a & s & g' & Hrun & HQ & Hpos & _).
  destruct (HQ 3%nat ltac:(simpl; lia)) as (Ha & _ & Hone & _).
  assert (Hx : visible_input layer_4_2 (zero_rbm layer_4_2) [1; 0] 3 = 0)
    by (unfold visible_input, mget, vget; simpl; lra).
  rewrite Hx, logistic_sigmoid_0 in Ha.
  exists a, s, g'. split; [exact Hrun|]. split; [exact Ha|].
  split; [|exact Hpos]. apply Hone. rewrite Ha. simpl. lra.
Defined.

(** X13.  With GAUSSIAN visible units the activation of visible unit [i] is
    its total input [c(i) + sum_j w(i, j) * h_s(j)] and the sample is the
    activation plus the [i]-th standard normal variate drawn in the call.
    With RELU visible units the activation is [max(0, x)] and the sample
    [max(0, x + noise)], the noise being the logistic sigmoid of [x] times
    that variate; neither is negative.  The call draws one normal variate
    per visible unit from its own generator and nothing from the others. *)
Theorem noisy_visible_sampling (L : Layer) (r : rbm)
    (h_a h_s v_a v_s : vector) (g : rand) :
  visible_unit L = GAUSSIAN \/ visible_unit L = RELU ->
  List.length v_a = num_visible L ->
  List.length v_s = num_visible L ->
  let x := visible_input L r h_s in
  let z := fun i => draws (visible_normal g) (pos (visible_normal g) + i) in
  exists a s g',
    activate_visible L r h_a h_s v_a v_s g = Ok ((a, s), g') /\
    (forall i, (i < num_visible L)%nat ->
       (visible_unit L = GAUSSIAN ->
          vget a i = x i /\ vget s i = vget a i + z i) /\
       (visible_unit L = RELU ->
          vget a i = Rmax 0 (x i) /\
          vget s i = Rmax 0 (x i + logistic_sigmoid (x i) * z i) /\
          0 <= vget a i /\ 0 <= vget s i)) /\
    pos (visible_normal g') = (pos (visible_normal g) + num_visible L)%nat /\
    draws (visible_normal g') = draws (visible_normal g) /\
    ctor_generator g' = ctor_generator g /\
    hidden_uniform g' = hidden_uniform g /\
    hidden_normal g' = hidden_normal g /\
    visible_uniform g' = visible_uniform g.
Proof.
  intros Hvu Ha Hs x z. unfold activate_visible.
  assert (Hmax : forall y, std_max 0 y = Rmax 0 y).
  { intros y. unfold std_max, Rmax.
    destruct (Rlt_dec 0 y), (Rle_dec 0 y); lra. }
  destruct Hvu as [Hvu | Hvu]; rewrite Hvu.
  - destruct (write_loop (num_visible L)
      (fun i '(v_a, v_s) =>
         let s := for_range 0 (num_hidden L)
                    (fun j s => s + mget (w r) i j * vget h_s j) 0 in
         let x := vget (c r) i + s in
         n <- draw_visible_noise 1 ;;
         ret (vset v_a i x, vset v_s i (x + n)))
      x (fun i => x i + z i)
      (fun k => mk_rand (ctor_generator g) (hidden_uniform g) (hidden_normal g)
                  (visible_uniform g)
                  (mk_generator (draws (visible_normal g))
                                (pos (visible_normal g) + k)))
      (vfill v_a 0) (vfill v_s 0))
      as (a & s & Hrun & _ & _ & HQ).
    + now rewrite length_vfill.
    + now rewrite length_vfill.
    + intros k a s Hk. cbv zeta. rewrite visible_sum_big_sum.
      unfold bind, draw_visible_noise, next, ret, x, z. simpl.
      rewrite Rmult_1_l. do 2 f_equal. do 2 f_equal. lia.
    + rewrite visible_normal_start in Hrun.
      exists a, s. eexists. split; [exact Hrun|].
      split; [|simpl; repeat split].
      intros i Hi. destruct (HQ i Hi) as (Hai & Hsi). rewrite Hai, Hsi.
      split; [intros _; split; reflexivity | discriminate].
  - destruct (write_loop (num_visible L)
      (fun i '(v_a, v_s) =>
         let s := for_range 0 (num_hidden L)
                    (fun j s => s + mget (w r) i j * vget h_s j) 0 in
         let x := vget (c r) i + s in
         n <- draw_visible_noise (logistic_sigmoid x) ;;
         ret (vset v_a i (std_max 0 x), vset v_s i (std_max 0 (x + n))))
      (fun i => Rmax 0 (x i))
      (fun i => Rmax 0 (x i + logistic_sigmoid (x i) * z i))
      (fun k => mk_rand (ctor_generator g) (hidden_uniform g) (hidden_normal g)
                  (visible_uniform g)
                  (mk_generator (draws (visible_normal g))
                                (pos (visible_normal g) + k)))
      (vfill v_a 0) (vfill v_s 0))
      as (a & s & Hrun & _ & _ & HQ).
    + now rewrite length_vfill.
    + now rewrite length_vfill.
    + intros k a s Hk. cbv zeta. rewrite visible_sum_big_sum.
      unfold bind, draw_visible_noise, next, ret, x, z. simpl.
      rewrite !Hmax. do 2 f_equal. do 2 f_equal. lia.
    + rewrite visible_normal_start in Hrun.
      exists a, s. eexists. split; [exact Hrun|].
      split; [|simpl; repeat split].
      intros i Hi. destruct (HQ i Hi) as (Hai & Hsi). rewrite Hai, Hsi.
      split; [discriminate|]. intros _.
      repeat split; try reflexivity; apply Rmax_l.
Qed.

Lemma noisy_visible_sampling_witness :
  exists a s g',
    activate_visible layer_gaussian_visible (zero_rbm layer_gaussian_visible)
                     [0; 0] [1; 0] [9; 9; 9; 9] [9; 9; 9; 9] (constant_rand 2)
    = Ok ((a, s), g') /\
    vget a 1 = 0 /\ vget s 1 = 2 /\ pos (visible_normal g') = 4%nat.
Proof.
  destruct (noisy_visible_sampling layer_gaussian_visible
              (zero_rbm layer_gaussian_visible) [0; 0] [1; 0]
              [9; 9; 9; 9] [9; 9; 9; 9] (constant_rand 2)
              (or_introl eq_refl) eq_refl eq_refl)
    as (a & s & g' & Hrun & HQ & Hpos & _).
  destruct (HQ 1%nat ltac:(simpl; lia)) as (HG & _).
  destruct (HG eq_refl) as (Ha & Hs).
  assert (Hx : visible_input layer_gaussian_visible
                 (zero_rbm layer_gaussian_visible) [1; 0] 1 = 0)
    by (unfold visible_input, mget, vget; simpl; lra).
  rewrite Hx in Ha.
  exists a, s, g'. split; [exact Hrun|]. split; [exact Ha|].
  split; [|exact Hpos]. rewrite Hs, Ha. simpl. lra.
Defined.




(** *** One step of contrastive divergence *)










(** *** Display of the weights *)

Lemma values_app (o1 o2 : list token) : values (o1 ++ o2) = values o1 ++ values o2.
Proof.
  induction o1 as [|t o1 IH]; simpl; [reflexivity|].
  destruct t; simpl; now rewrite IH.
Qed.

Lemma line_count_app (o1 o2 : list token) :
  line_count (o1 ++ o2) = (line_count o1 + line_count o2)%nat.
Proof.
  induction o1 as [|t o1 IH]; simpl; [reflexivity|].
  destruct t; simpl; now rewrite IH.
Qed.

Lemma print_cells (f : nat -> weight) (ks : list nat) (out : list token) :
  let out' := fold_left (fun out k => out ++ [Value (f k); Space]) ks out in
  values out' = values out ++ map f ks /\ line_count out' = line_count out.
Proof.
  revert out. induction ks as [|k ks IH]; intros out; simpl.
  - now rewrite app_nil_r.
  - destruct (IH (out ++ [Value (f k); Space])) as [Hv Hl].
    rewrite Hv, Hl, values_app, line_count_app. simpl.
    rewrite <- app_assoc, Nat.add_0_r. now split.
Qed.

Lemma print_columns (L : Layer) (r : rbm) (js : list nat) (out : list token) :
  let out' :=
    fold_left (fun out j =>
      for_range 0 (num_visible L) (fun i out =>
        out ++ [Value (mget (w r) i j); Space]) out ++ [Endl]) js out in
  values out' = values out ++ flat_map (column L r) js /\
  line_count out' = (line_count out + List.length js)%nat.
Proof.
  revert out. induction js as [|j js IH]; intros out; simpl.
  - now rewrite app_nil_r, Nat.add_0_r.
  - match goal with |- context [fold_left _ js ?o] => destruct (IH o) as [Hv Hl] end.
    rewrite Hv, Hl, values_app, line_count_app. simpl.
    destruct (print_cells (fun i => mget (w r) i j)
                (seq 0 (num_visible L - 0)) out) as [Hv1 Hl1].
    unfold for_range. rewrite Hv1, Hl1, Nat.sub_0_r.
    unfold column. rewrite app_nil_r, <- app_assoc. split; [reflexivity | lia].
Qed.

Lemma display_weights_values (L : Layer) (r : rbm) :
  values (display_weights L r) = flat_map (column L r) (seq 0 (num_hidden L)) /\
  line_count (display_weights L r) = num_hidden L.
Proof.
  destruct (print_columns L r (seq 0 (num_hidden L - 0)) []) as [Hv Hl].
  rewrite Nat.sub_0_r in Hv, Hl. rewrite length_seq in Hl.
  unfold display_weights. unfold for_range at 1 3. rewrite Nat.sub_0_r.
  split; [exact Hv | exact Hl].
Qed.

Lemma length_flat_map_column (L : Layer) (r : rbm) (js : list nat) :
  List.length (flat_map (column L r) js)
  = (List.length js * num_visible L)%nat.
Proof.
  induction js as [|j js IH]; simpl; [reflexivity|].
  rewrite length_app, IH. unfold column. now rewrite length_map, length_seq.
Qed.

(** X17.  [display_weights()] prints the weights hidden unit by hidden unit:
    the numbers it prints are, in order, the columns of [w], one line per
    hidden unit, [num_visible * num_hidden] numbers in all. *)
Theorem display_weights_by_hidden_unit (L : Layer) (r : rbm) :
  values (display_weights L r) = flat_map (column L r) (seq 0 (num_hidden L)) /\
  line_count (display_weights L r) = num_hidden L /\
  List.length (values (display_weights L r))
  = (num_hidden L * num_visible L)%nat.
Proof.
  destruct (display_weights_values L r) as [Hv Hl].
  split; [exact Hv|]. split; [exact Hl|].
  now rewrite Hv, length_flat_map_column, length_seq.
Qed.

Lemma print_block (L : Layer) (r : rbm) (matrix j i : nat) (out : list token) :
  exists out',
    for_range 0 matrix (fun m '(i, out) =>
      (S i, out ++ [Value (mget (w r) i j); Space])) (i, out)
    = ((i + matrix)%nat, out') /\
    values out' = values out ++ map (fun i => mget (w r) i j) (seq i matrix) /\
    line_count out' = line_count out.
Proof.
  induction matrix as [|m IH].
  - rewrite for_range_empty. exists out. simpl.
    now rewrite Nat.add_0_r, app_nil_r.
  - rewrite for_range_step by lia. destruct IH as (out1 & -> & Hv & Hl).
    eexists. split; [f_equal; lia|].
    rewrite values_app, line_count_app, Hv, Hl, seq_S, map_app. simpl.
    rewrite <- app_assoc, Nat.add_0_r. now split.
Qed.

Lemma display_weights_rows_done (L : Layer) (r : rbm) (matrix j : nat) :
  (0 < matrix)%nat ->
  forall n fuel i out,
    num_visible L = (i + matrix * n)%nat ->
    (n < fuel)%nat ->
    exists out',
      display_weights_rows fuel L r matrix j i out = Some out' /\
      values out'
      = values out ++ map (fun i => mget (w r) i j) (seq i (matrix * n)) /\
      line_count out' = (line_count out + n)%nat.
Proof.
  intros Hm. induction n as [|n IH]; intros fuel i out Hnv Hfuel.
  - destruct fuel as [|fuel]; [lia|]. simpl.
    replace (i <? num_visible L) with false
      by (symmetry; apply Nat.ltb_ge; lia).
    exists out. rewrite Nat.mul_0_r. simpl.
    now rewrite app_nil_r, Nat.add_0_r.
  - destruct fuel as [|fuel]; [lia|]. simpl.
    replace (i <? num_visible L) with true
      by (symmetry; apply Nat.ltb_lt; nia).
    destruct (print_block L r matrix j i out) as (out1 & -> & Hv1 & Hl1).
    destruct (IH fuel (i + matrix)%nat (out1 ++ [Endl]) ltac:(nia) ltac:(lia))
      as (out' & Hrun & Hv & Hl).
    exists out'. split; [exact Hrun|].
    rewrite Hv, Hl, values_app, line_count_app, Hv1, Hl1. simpl.
    replace (matrix * S n)%nat with (matrix + matrix * n)%nat by lia.
    rewrite seq_app, map_app, app_nil_r, <- app_assoc. split; [reflexivity | lia].
Qed.

Lemma display_weights_rows_stuck (L : Layer) (r : rbm) (j i : nat) :
  (i < num_visible L)%nat ->
  forall fuel out, display_weights_rows fuel L r 0 j i out = None.
Proof.
  intros Hi. induction fuel as [|fuel IH]; intros out; simpl; [reflexivity|].
  replace (i <? num_visible L) with true by (symmetry; now apply Nat.ltb_lt).
  apply IH.
Qed.

(** X18.  [display_weights(matrix)] with [matrix = 0] never ends when there
    is a visible and a hidden unit: its middle loop does not advance.  With
    a positive [matrix] that divides [num_visible] it ends, prints the same
    numbers in the same order as [display_weights()], and breaks the line
    after every [matrix] numbers: [num_visible / matrix] lines per hidden
    unit. *)
Theorem display_weights_matrix_lines (L : Layer) (r : rbm) :
  ((0 < num_visible L)%nat -> (0 < num_hidden L)%nat ->
   forall fuel, display_weights_matrix fuel L r 0 = None) /\
  (forall matrix q fuel,
     (0 < matrix)%nat ->
     num_visible L = (matrix * q)%nat ->
     (q < fuel)%nat ->
     exists out,
       display_weights_matrix fuel L r matrix = Some out /\
       values out = values (display_weights L r) /\
       line_count out = (num_hidden L * q)%nat).
Proof.
  split.
  - intros Hv Hh fuel. unfold display_weights_matrix.
    destruct (num_hidden L) as [|n]; [lia|].
    rewrite for_range_step by lia.
    destruct (for_range 0 n _ (Some [])) as [out|]; [|reflexivity].
    now apply display_weights_rows_stuck.
  - intros matrix q fuel Hm Hq Hfuel.
    destruct (display_weights_values L r) as [Hdv _]. rewrite Hdv.
    unfold display_weights_matrix.
    generalize (num_hidden L) as n. intros n.
    induction n as [|n (out & Hrun & Hv & Hl)].
    + rewrite for_range_empty. exists []. simpl. auto.
    + rewrite for_range_step by lia. rewrite Hrun.
      destruct (display_weights_rows_done L r matrix n Hm q fuel 0%nat out
                  ltac:(simpl; exact Hq) Hfuel) as (out' & Hrun' & Hv' & Hl').
      exists out'. split; [exact Hrun'|].
      rewrite Hv', Hl', Hv, Hl, seq_S, flat_map_app. simpl.
      rewrite app_nil_r. unfold column. rewrite Hq.
      split; [reflexivity | lia].
Qed.

Lemma display_weights_matrix_lines_witness :
  display_weights_matrix 1000 layer_4_2 (zero_rbm layer_4_2) 0 = None /\
  exists out,
    display_weights_matrix 3 layer_4_2 (zero_rbm layer_4_2) 2 = Some out /\
    values out = values (display_weights layer_4_2 (zero_rbm layer_4_2)) /\
    line_count out = 4%nat.
Proof.
  split.
  - apply (proj1 (display_weights_matrix_lines layer_4_2 (zero_rbm layer_4_2)));
      simpl; lia.
  - apply (proj2 (display_weights_matrix_lines layer_4_2 (zero_rbm layer_4_2))
                 2%nat 2%nat 3%nat); simpl; lia.
Defined.

(** *** Display of the visible sample *)

Lemma print_grid (f : nat -> nat -> weight) (m : nat) (ks : list nat)
    (out : list token) :
  let out' :=
    fold_left (fun out i =>
      for_range 0 m (fun j out => out ++ [Value (f i j); Space]) out ++ [Endl])
      ks out in
  values out' = values out ++ flat_map (fun i => map (f i) (seq 0 m)) ks /\
  line_count out' = (line_count out + List.length ks)%nat.
Proof.
  revert out. induction ks as [|i ks IH]; intros out; simpl.
  - now rewrite app_nil_r, Nat.add_0_r.
  - match goal with |- context [fold_left _ ks ?o] => destruct (IH o) as [Hv Hl] end.
    rewrite Hv, Hl, values_app, line_count_app. simpl.
    destruct (print_cells (f i) (seq 0 (m - 0)) out) as [Hv1 Hl1].
    unfold for_range. rewrite Hv1, Hl1, Nat.sub_0_r.
    rewrite app_nil_r, <- app_assoc. split; [reflexivity | lia].
Qed.

Lemma map_add_seq (f : nat -> weight) (a m : nat) :
  map (fun j => f (a + j)%nat) (seq 0 m) = map f (seq a m).
Proof.
  revert a. induction m as [|m IH]; intros a; simpl; [reflexivity|].
  rewrite Nat.add_0_r. f_equal.
  rewrite <- seq_shift, map_map, <- IH. apply map_ext.
  intros j. f_equal. lia.
Qed.

Lemma grid_row_major (f : nat -> weight) (m n : nat) :
  flat_map (fun i => map (fun j => f (i * m + j)%nat) (seq 0 m)) (seq 0 n)
  = map f (seq 0 (n * m)).
Proof.
  induction n as [|n IH]; [reflexivity|].
  rewrite seq_S, flat_map_app, IH. simpl flat_map.
  rewrite app_nil_r, map_add_seq.
  replace (S n * m)%nat with (n * m + m)%nat by lia.
  now rewrite seq_app, map_app.
Qed.

Lemma map_vget_firstn (v : vector) (n : nat) :
  (n <= List.length v)%nat -> map (vget v) (seq 0 n) = firstn n v.
Proof.
  revert n. induction v as [|h t IH]; intros [|n] Hn; simpl in *;
    try reflexivity; try lia.
  f_equal. rewrite <- seq_shift, map_map. apply IH. lia.
Qed.

(** X19.  [display_visible_units(matrix)] prints the first
    [matrix * matrix] elements of the visible sample [v2_s], in order,
    [matrix] to a line, as long as the buffer holds that many. *)
Theorem display_visible_units_grid (r : rbm) (matrix : nat) :
  (matrix * matrix <= List.length (v2_s r))%nat ->
  values (display_visible_units_matrix r matrix)
  = firstn (matrix * matrix) (v2_s r) /\
  line_count (display_visible_units_matrix r matrix) = matrix.
Proof.
  intros Hlen.
  destruct (print_grid (fun i j => vget (v2_s r) (i * matrix + j)) matrix
              (seq 0 (matrix - 0)) []) as [Hv Hl].
  rewrite Nat.sub_0_r in Hv, Hl. rewrite length_seq in Hl.
  simpl values in Hv. simpl app in Hv.
  rewrite (grid_row_major (vget (v2_s r))) in Hv.
  rewrite map_vget_firstn in Hv by exact Hlen.
  unfold display_visible_units_matrix. unfold for_range at 1 3.
  rewrite Nat.sub_0_r. split; [exact Hv | exact Hl].
Qed.

Lemma display_visible_units_grid_witness :
  values (display_visible_units_matrix
            (set_vec slot_v2_s [1; 0; 0; 1] (zero_rbm layer_4_2)) 2)
  = [1; 0; 0; 1] /\
  line_count (display_visible_units_matrix
                (set_vec slot_v2_s [1; 0; 0; 1] (zero_rbm layer_4_2)) 2) = 2%nat.
Proof.
  apply (display_visible_units_grid
           (set_vec slot_v2_s [1; 0; 0; 1] (zero_rbm layer_4_2)) 2).
  simpl. lia.
Defined.

(** *** Persistence, read first *)

Lemma load_parts (r0 : rbm) (xw xb xc rest : list weight) :
  List.length xw = List.length (data (w r0)) ->
  List.length xb = List.length (b r0) ->
  List.length xc = List.length (c r0) ->
  load (xw ++ xb ++ xc ++ rest) r0
  = (rest,
     set_vec slot_c xc
       (set_vec slot_b xb (set_mat slot_w (mk_matrix (cols (w r0)) xw) r0))).
Proof.
  intros Hw Hb Hc. unfold load.
  rewrite binary_load_all_app by exact Hw.
  change (b (set_mat slot_w _ r0)) with (b r0).
  rewrite binary_load_all_app by exact Hb.
  change (c (set_vec slot_b _ (set_mat slot_w _ r0))) with (c r0).
  rewrite binary_load_all_app by exact Hc.
  reflexivity.
Qed.

(** X20.  With the stream helpers modelled as a raw sequence of values:
    [load] on a well-shaped instance takes the first
    [num_visible * num_hidden] values of the stream for [w], the next
    [num_hidden] for [b] and the next [num_visible] for [c], and leaves the
    rest of the stream; [store] on the result writes back exactly the values
    that were read; the instance keeps its shape, and the members other than
    [w], [b] and [c], the bindings of [gr_w] and [gr_b] and the learning
    rate are untouched. *)
Theorem load_store_round_trip (L : Layer) (r0 : rbm) (xw xb xc rest : list weight) :
  shaped L r0 ->
  List.length xw = (num_visible L * num_hidden L)%nat ->
  List.length xb = num_hidden L ->
  List.length xc = num_visible L ->
  let r' := snd (load (xw ++ xb ++ xc ++ rest) r0) in
  fst (load (xw ++ xb ++ xc ++ rest) r0) = rest /\
  data (w r') = xw /\ b r' = xb /\ c r' = xc /\
  store r' [] = xw ++ xb ++ xc /\
  shaped L r' /\
  (forall s, s <> slot_w -> mats r' s = mats r0 s) /\
  (forall s, s <> slot_b -> s <> slot_c -> vecs r' s = vecs r0 s) /\
  gr_w_ref r' = gr_w_ref r0 /\ gr_b_ref r' = gr_b_ref r0 /\
  learning_rate r' = learning_rate r0.
Proof.
  intros (Hcols & Hw & Hb & Hc) Lw Lb Lc r'. subst r'.
  rewrite load_parts by congruence. simpl fst. simpl snd.
  split; [reflexivity|].
  split; [reflexivity|]. split; [reflexivity|]. split; [reflexivity|].
  split; [rewrite store_sequence; reflexivity|].
  split; [unfold shaped; simpl; auto|].
  split; [|split; [|repeat split]].
  - intros s Hs. simpl. destruct (mat_slot_eq_dec s slot_w); [contradiction|].
    reflexivity.
  - intros s Hsb Hsc. simpl.
    destruct (vec_slot_eq_dec s slot_c); [contradiction|].
    destruct (vec_slot_eq_dec s slot_b); [contradiction|]. reflexivity.
Qed.

Lemma load_store_round_trip_witness :
  store (snd (load [1; 2; 3; 4; 5; 6; 7; 8; 9; 10; 11; 12; 13; 14; 15]
                   (zero_rbm layer_4_2))) []
  = [1; 2; 3; 4; 5; 6; 7; 8; 9; 10; 11; 12; 13; 14] /\
  fst (load [1; 2; 3; 4; 5; 6; 7; 8; 9; 10; 11; 12; 13; 14; 15]
            (zero_rbm layer_4_2)) = [15].
Proof.
  assert (Hs : shaped layer_4_2 (zero_rbm layer_4_2)).
  { unfold shaped. simpl. repeat split; reflexivity. }
  destruct (load_store_round_trip layer_4_2 (zero_rbm layer_4_2)
              [1; 2; 3; 4; 5; 6; 7; 8] [9; 10] [11; 12; 13; 14] [15]
              Hs eq_refl eq_refl eq_refl) as (Hrest & _ & _ & _ & Hstore & _).
  split; [exact Hstore | exact Hrest].
Defined.

(** *** The sign and the order of the warm-started biases *)

Lemma logit_le (p q : R) :
  0 < p -> p <= q -> q < 1 -> ln (p / (1 - p)) <= ln (q / (1 - q)).
Proof.
  intros Hp Hpq Hq.
  destruct (Req_dec p q) as [-> | Hne]; [lra|].
  left. apply ln_increasing.
  - apply Rdiv_lt_0_compat; lra.
  - apply (Rmult_lt_reg_r ((1 - p) * (1 - q))); [nra|].
    replace (p / (1 - p) * ((1 - p) * (1 - q))) with (p * (1 - q))
      by (field; lra).
    replace (q / (1 - q) * ((1 - p) * (1 - q))) with (q * (1 - p))
      by (field; lra).
    nra.
Qed.

Lemma logit_positive (p : R) :
  0 < p -> p < 1 -> (0 < ln (p / (1 - p)) <-> 1 / 2 < p).
Proof.
  intros Hp Hlt.
  assert (Hq : 0 < p / (1 - p)) by (apply Rdiv_lt_0_compat; lra).
  assert (Hone : 1 < p / (1 - p) <-> 1 / 2 < p).
  { split; intros H.
    - apply (Rmult_lt_compat_r (1 - p)) in H; [|lra].
      replace (p / (1 - p) * (1 - p)) with p in H by (field; lra). lra.
    - apply (Rmult_lt_reg_r (1 - p)); [lra|].
      replace (p / (1 - p) * (1 - p)) with p by (field; lra). lra. }
  rewrite <- Hone, <- ln_1. split; intros H.
  - destruct (Rlt_dec 1 (p / (1 - p))) as [H1 | H1]; [exact H1|].
    assert (Hle : p / (1 - p) <= 1) by lra.
    destruct Hle as [Hlt1 | Heq].
    + apply ln_increasing in Hlt1; [lra | exact Hq].
    + rewrite Heq in H. lra.
  - apply ln_increasing; lra.
Qed.

(** X21.  After a successful [init_weights] the visible biases follow the
    training set: a unit that is 1 in no more examples than another gets a
    bias that is no larger, and the bias of a unit is positive exactly when
    its smoothed probability of being 1 is above one half. *)
Theorem init_weights_bias_order (L : Layer) (training_data : list vector)
    (r : rbm) (g : rand) (r' : rbm) (g' : rand) :
  List.length (c r) = num_visible L ->
  init_weights L training_data r g = Ok (r', g') ->
  forall i k, (i < num_visible L)%nat -> (k < num_visible L)%nat ->
    ((ones_count training_data i <= ones_count training_data k)%nat ->
     vget (c r') i <= vget (c r') k) /\
    (0 < vget (c r') i <-> 1 / 2 < empirical_p training_data i).
Proof.
  intros Hc H i k Hi Hk.
  destruct (init_weights_ok_inv L training_data r g r' g' Hc H)
    as (_ & [(Hz & _) | (Hne & Hall & _ & Hval & _)]); [lia|].
  rewrite (Hval i Hi), (Hval k Hk).
  pose proof (empirical_p_pos training_data i Hne) as Hpi.
  split.
  - intros Hle. apply logit_le; [exact Hpi | | apply Hall; exact Hk].
    unfold empirical_p.
    assert (Hn : 0 < INR (List.length training_data)).
    { apply lt_0_INR. destruct training_data; [congruence | simpl; lia]. }
    apply le_INR in Hle.
    apply Rplus_le_compat_r. unfold Rdiv.
    apply Rmult_le_compat_r; [|exact Hle].
    left. now apply Rinv_0_lt_compat.
  - apply logit_positive; [exact Hpi | apply Hall; exact Hi].
Qed.

Lemma init_weights_bias_order_witness :
  exists r',
    init_weights layer_4_2 balanced_data (zero_rbm layer_4_2) (constant_rand 0)
    = Ok (r', constant_rand 0) /\
    vget (c r') 3 <= vget (c r') 0 /\ 0 < vget (c r') 0.
Proof.
  destruct (init_weights_rounds layer_4_2 balanced_data (zero_rbm layer_4_2)
              (constant_rand 0) 4 _ ltac:(discriminate) eq_refl
              (Nat.le_refl _) eq_refl) as (Hok & _).
  destruct (Hok balanced_data_p) as (r' & Hrun & _).
  exists r'. split; [exact Hrun|].
  pose proof (init_weights_bias_order layer_4_2 balanced_data
                (zero_rbm layer_4_2) (constant_rand 0) r' (constant_rand 0)
                eq_refl Hrun) as T.
  split.
  - apply (proj1 (T 3%nat 0%nat ltac:(simpl; lia) ltac:(simpl; lia))).
    unfold ones_count, balanced_data, vget. decide_weight_eqb. simpl. lia.
  - apply (proj2 (T 0%nat 0%nat ltac:(simpl; lia) ltac:(simpl; lia))).
    unfold empirical_p, ones_count, balanced_data, vget.
    decide_weight_eqb; simpl; lra.
Defined.
